(** * Book Review API: a shallow embedding of the request handlers

    The development follows the Express application: the two middlewares of
    [middleware/auth.js], the route handlers of [routes/auth.js],
    [routes/books.js], [routes/reviews.js] and [routes/search.js], and the
    schema of [scripts/setupDatabase.js].

    Conventions of the model.
    - JavaScript numbers are modelled by [Z]; the model is exact as long as
      every intermediate value is a safe integer.  [NaN] is [None].
    - Strings are [String.string], one [ascii] per character; case folding
      acts on the ASCII letters.
    - A property of a JSON body is a [field]: absent, [null], or a value
      of the type the handler expects (a string, or an integer).
    - The database is a record of three tables (lists of rows, in insertion
      order) and three sequences.  A statement that PostgreSQL rejects makes
      [pool.query] throw; the handlers' [catch] turns that into status 500.
      Rejections for the encoding of a text (a NUL character) are not
      modelled, nor is a lost connection.
    - bcrypt, jsonwebtoken and the full-text match of PostgreSQL are
      parameters: nothing is assumed of them. *)

From Stdlib Require Import ZArith List Bool String Ascii Lia Sorted Permutation.
Import ListNotations.
Local Open Scope Z_scope.
Local Open Scope list_scope.

(** ** Characters and strings *)

Definition chars := list ascii.

Definition code (c : ascii) : Z := Z.of_N (N_of_ascii c).

Definition between (lo hi n : Z) : bool := (lo <=? n) && (n <=? hi).

Definition is_digit (c : ascii) : bool := between 48 57 (code c).

Definition strlen (s : string) : Z := Z.of_nat (String.length s).

(** An optional sign: whether it is a minus, and what follows it. *)
Definition strip_sign (s : chars) : bool * chars :=
  match s with
  | c :: r =>
      if (c =? "-")%char then (true, r)
      else if (c =? "+")%char then (false, r)
      else (false, s)
  | [] => (false, [])
  end.

(** ** JavaScript primitives used by the handlers *)

Module Js.

(** White space of [parseInt], [trim] and the regular expression class
    backslash-s, restricted to one-byte characters: TAB, LF, VT, FF, CR,
    SPACE and NBSP. *)
Definition isspace (c : ascii) : bool :=
  let n := code c in between 9 13 n || (n =? 32) || (n =? 160).

Fixpoint trimStart (s : chars) : chars :=
  match s with
  | c :: s' => if isspace c then trimStart s' else s
  | [] => []
  end.

Definition trimEnd (s : chars) : chars := rev (trimStart (rev s)).

Definition trim (s : string) : string :=
  string_of_list_ascii (trimEnd (trimStart (list_ascii_of_string s))).

(** Value of [c] as a digit in [radix], if it is one. *)
Definition digit_val (radix : Z) (c : ascii) : option Z :=
  let n := code c in
  let v := if between 48 57 n then n - 48
           else if between 97 122 n then n - 87
           else if between 65 90 n then n - 55
           else 36 in
  if v <? radix then Some v else None.

(** The longest prefix of digits, read in [radix]; [None] when it is empty. *)
Fixpoint digits_prefix (radix : Z) (acc : option Z) (s : chars) : option Z :=
  match s with
  | c :: s' =>
      match digit_val radix c with
      | Some d =>
          digits_prefix radix
            (Some (match acc with Some a => a * radix + d | None => d end)) s'
      | None => acc
      end
  | [] => acc
  end.

(** A leading ["0x"] or ["0X"] selects radix 16 and is dropped. *)
Definition strip_hex (s : chars) : Z * chars :=
  match s with
  | c0 :: c1 :: r =>
      if (c0 =? "0")%char && ((c1 =? "x")%char || (c1 =? "X")%char)
      then (16, r) else (10, s)
  | _ => (10, s)
  end.

(** [parseInt(s)] with no radix argument. *)
Definition parseInt (s : string) : option Z :=
  let '(neg, s2) := strip_sign (trimStart (list_ascii_of_string s)) in
  let '(radix, s3) := strip_hex s2 in
  option_map (Z.mul (if neg then -1 else 1)) (digits_prefix radix None s3).

(** A query-string or route parameter: a string, or [undefined]. *)
Definition ToString (p : option string) : string :=
  match p with Some s => s | None => "undefined"%string end.

(** [x || d] for a number [x]: [NaN] and [0] are falsy. *)
Definition or_default (x : option Z) (d : Z) : Z :=
  match x with
  | Some n => if n =? 0 then d else n
  | None => d
  end.

Definition lower_char (c : ascii) : ascii :=
  if between 65 90 (code c) then ascii_of_N (N_of_ascii c + 32) else c.

Fixpoint toLowerCase (s : string) : string :=
  match s with
  | EmptyString => EmptyString
  | String c s' => String (lower_char c) (toLowerCase s')
  end.

End Js.

(** ** Values of a JSON request body *)

Inductive field (A : Type) : Type :=
| Undefined : field A
| Null : field A
| Val : A -> field A.
Arguments Undefined {A}.
Arguments Null {A}.
Arguments Val {A} _.

(** Truthiness: the empty string and [0] are falsy. *)
Definition truthy_str (f : field string) : bool :=
  match f with Val s => negb (String.eqb s "") | _ => false end.

Definition truthy_num (f : field Z) : bool :=
  match f with Val n => negb (n =? 0) | _ => false end.

Definition is_undefined {A} (f : field A) : bool :=
  match f with Undefined => true | _ => false end.

(** node-postgres sends [undefined] and [null] as SQL NULL. *)
Definition to_sql {A} (f : field A) : option A :=
  match f with Val a => Some a | _ => None end.

(** ** Pagination helper ([routes/books.js], [routes/search.js]) *)

Record Pagination := mkPagination {
  pg_limit : Z;
  pg_offset : Z;
  pg_page : Z
}.

Definition getPagination (page limit : option string) : Pagination :=
  let pageNum := Js.or_default (Js.parseInt (Js.ToString page)) 1 in
  let limitNum := Js.or_default (Js.parseInt (Js.ToString limit)) 10 in
  let offset := (pageNum - 1) * limitNum in
  {| pg_limit := Z.min limitNum 50;
     pg_offset := Z.max offset 0;
     pg_page := pageNum |}.

(** ** PostgreSQL primitives used by the statements *)

Module Pg.

(** [isspace] of the C locale. *)
Definition isspace (c : ascii) : bool :=
  let n := code c in between 9 13 n || (n =? 32).

Fixpoint skip_spaces (s : chars) : chars :=
  match s with
  | c :: s' => if isspace c then skip_spaces s' else s
  | [] => []
  end.

Definition in_int4 (n : Z) : bool := between (-2147483648) 2147483647 n.

Definition in_int8 (n : Z) : bool :=
  between (-9223372036854775808) 9223372036854775807 n.

Fixpoint take_digits (acc : Z) (s : chars) : Z * chars :=
  match s with
  | c :: s' =>
      if is_digit c then take_digits (acc * 10 + (code c - 48)) s' else (acc, s)
  | [] => (acc, [])
  end.

(** Text input of an [INTEGER] parameter (PostgreSQL 15, the version the
    compose file pins): optional white space, optional sign, at least one
    decimal digit, optional white space, nothing else; [None] is the error
    "invalid input syntax" or "out of range". *)
Definition int4in (s : string) : option Z :=
  let '(neg, s2) := strip_sign (skip_spaces (list_ascii_of_string s)) in
  match s2 with
  | c :: _ =>
      if is_digit c then
        let '(v, rest) := take_digits 0 s2 in
        match skip_spaces rest with
        | [] => let n := if neg then - v else v in
                if in_int4 n then Some n else None
        | _ :: _ => None
        end
      else None
  | [] => None
  end.

(** A JavaScript number bound to an [INTEGER] parameter. *)
Definition int4_of_number (n : Z) : option Z :=
  if in_int4 n then Some n else None.

Definition lower (s : string) : string := Js.toLowerCase s.

(** Assignment to a [VARCHAR(n)] column: an over-long value is an error
    unless the excess is all spaces, which are cut off. *)
Definition all_spaces (s : chars) : bool :=
  forallb (fun c => code c =? 32) s.

Definition varchar (n : nat) (s : string) : option string :=
  let l := list_ascii_of_string s in
  if (List.length l <=? n)%nat then Some s
  else if all_spaces (skipn n l) then Some (string_of_list_ascii (firstn n l))
  else None.

Definition varchar_opt (n : nat) (s : option string) : option (option string) :=
  match s with
  | None => Some None
  | Some v => option_map Some (varchar n v)
  end.

(** [t LIKE p] with the default escape character: percent matches any
    sequence, underscore any one character, backslash quotes the next
    character.  A pattern ends the match with [false] at a dangling
    backslash; the handlers' patterns end with percent, so none dangles
    unquoted. *)
Fixpoint like (p t : chars) {struct p} : bool :=
  match p with
  | [] => match t with [] => true | _ :: _ => false end
  | c :: p' =>
      if (c =? "%")%char then
        (fix any (t : chars) : bool :=
           like p' t || match t with [] => false | _ :: t' => any t' end) t
      else if (c =? "_")%char then
        match t with [] => false | _ :: t' => like p' t' end
      else if (c =? "\")%char then
        match p' with
        | [] => false
        | q :: p'' =>
            match t with
            | [] => false
            | x :: t' => (x =? q)%char && like p'' t'
            end
        end
      else
        match t with
        | [] => false
        | x :: t' => (x =? c)%char && like p' t'
        end
  end.

Definition LIKE (t p : string) : bool :=
  like (list_ascii_of_string p) (list_ascii_of_string t).

(** [ORDER BY]: insertion sort by a "comes first" test. *)
Fixpoint insert_by {A} (first : A -> A -> bool) (x : A) (l : list A) : list A :=
  match l with
  | [] => [x]
  | y :: l' => if first x y then x :: l else y :: insert_by first x l'
  end.

Definition order_by {A} (first : A -> A -> bool) (l : list A) : list A :=
  fold_right (insert_by first) [] l.

(** [LIMIT l OFFSET o]: both are [BIGINT] parameters and must not be
    negative. *)
Definition limit_offset {A} (l o : Z) (rows : list A) : option (list A) :=
  if in_int8 l && in_int8 o && (0 <=? l) && (0 <=? o)
  then Some (firstn (Z.to_nat l) (skipn (Z.to_nat o) rows))
  else None.

End Pg.

(** ** Schema ([scripts/setupDatabase.js]) *)

Record User := mkUser {
  u_id : Z;
  u_username : string;
  u_email : string;
  u_password_hash : string;
  u_created_at : Z;
  u_updated_at : Z
}.

Record Book := mkBook {
  b_id : Z;
  b_title : string;
  b_author : string;
  b_genre : option string;
  b_description : option string;
  b_published_year : option Z;
  b_isbn : option string;
  b_created_by : option Z;
  b_created_at : Z;
  b_updated_at : Z
}.

Record Review := mkReview {
  r_id : Z;
  r_book_id : Z;
  r_user_id : Z;
  r_rating : Z;
  r_review_text : option string;
  r_created_at : Z;
  r_updated_at : Z
}.

Record DB := mkDB {
  users : list User;
  books : list Book;
  reviews : list Review;
  users_id_seq : Z;
  books_id_seq : Z;
  reviews_id_seq : Z
}.

Definition empty_db : DB := mkDB [] [] [] 1 1 1.

Definition set_users (db : DB) (l : list User) (seq : Z) : DB :=
  mkDB l (books db) (reviews db) seq (books_id_seq db) (reviews_id_seq db).

Definition set_books (db : DB) (l : list Book) (seq : Z) : DB :=
  mkDB (users db) l (reviews db) (users_id_seq db) seq (reviews_id_seq db).

Definition set_reviews (db : DB) (l : list Review) (seq : Z) : DB :=
  mkDB (users db) (books db) l (users_id_seq db) (books_id_seq db) seq.

Definition user_exists (db : DB) (id : Z) : bool :=
  existsb (fun u => u_id u =? id) (users db).

Definition book_exists (db : DB) (id : Z) : bool :=
  existsb (fun b => b_id b =? id) (books db).

(** *** INSERT

    [nextval] is taken from the [SERIAL] sequence whether or not the row is
    stored; [None] is a violated constraint (type, width, NOT NULL, CHECK,
    PRIMARY KEY, UNIQUE or a foreign key), which makes the statement
    throw. *)

Definition insert_user (db : DB) (now : Z)
    (username email password_hash : string) : DB * option User :=
  let id := users_id_seq db in
  let db1 := set_users db (users db) (id + 1) in
  match Pg.int4_of_number id, Pg.varchar 50 username,
        Pg.varchar 100 email, Pg.varchar 255 password_hash with
  | Some _, Some un, Some em, Some ph =>
      if existsb (fun u => (u_id u =? id)
                           || String.eqb (u_username u) un
                           || String.eqb (u_email u) em) (users db)
      then (db1, None)
      else
        let row := mkUser id un em ph now now in
        (set_users db (users db ++ [row]) (id + 1), Some row)
  | _, _, _, _ => (db1, None)
  end.

Definition int4_opt (n : option Z) : option (option Z) :=
  match n with
  | None => Some None
  | Some v => option_map Some (Pg.int4_of_number v)
  end.

Definition insert_book (db : DB) (now : Z) (title author : option string)
    (genre description : option string) (published_year : option Z)
    (isbn : option string) (created_by : option Z) : DB * option Book :=
  let id := books_id_seq db in
  let db1 := set_books db (books db) (id + 1) in
  match Pg.int4_of_number id, title, author with
  | Some _, Some title, Some author =>
      match Pg.varchar 255 title, Pg.varchar 255 author,
            Pg.varchar_opt 100 genre, int4_opt published_year,
            Pg.varchar_opt 20 isbn, int4_opt created_by with
      | Some t, Some a, Some g, Some y, Some i, Some c =>
          if negb (book_exists db id)
             && match c with Some uid => user_exists db uid | None => true end
          then
            let row := mkBook id t a g description y i c now now in
            (set_books db (books db ++ [row]) (id + 1), Some row)
          else (db1, None)
      | _, _, _, _, _, _ => (db1, None)
      end
  | _, _, _ => (db1, None)
  end.

Definition insert_review (db : DB) (now : Z) (book_id user_id : Z)
    (rating : option Z) (review_text : option string) : DB * option Review :=
  let id := reviews_id_seq db in
  let db1 := set_reviews db (reviews db) (id + 1) in
  match Pg.int4_of_number id, Pg.int4_of_number book_id,
        Pg.int4_of_number user_id, rating with
  | Some _, Some b, Some u, Some rt =>
      if Pg.in_int4 rt && between 1 5 rt
         && book_exists db b && user_exists db u
         && negb (existsb (fun r => (r_id r =? id)
                                    || ((r_book_id r =? b) && (r_user_id r =? u)))
                    (reviews db))
      then
        let row := mkReview id b u rt review_text now now in
        (set_reviews db (reviews db ++ [row]) (id + 1), Some row)
      else (db1, None)
  | _, _, _, _ => (db1, None)
  end.

(** *** UPDATE reviews SET ... WHERE id = $n RETURNING *

    The SET list holds [rating] and [review_text] when the body has them
    (a [null] included) and always [updated_at = CURRENT_TIMESTAMP]. *)

Definition set_rating (rating : field Z) (r : Review) : option Z :=
  match rating with
  | Undefined => Some (r_rating r)
  | Null => None
  | Val n => if between 1 5 n then Some n else None
  end.

Definition set_review_text (review_text : field string) (r : Review)
    : option string :=
  match review_text with
  | Undefined => r_review_text r
  | Null => None
  | Val s => Some s
  end.

Definition updated_row (now : Z) (rating : field Z) (review_text : field string)
    (r : Review) : option Review :=
  match set_rating rating r with
  | Some rt =>
      Some (mkReview (r_id r) (r_book_id r) (r_user_id r) rt
              (set_review_text review_text r) (r_created_at r) now)
  | None => None
  end.

Fixpoint update_rows (now : Z) (id : Z) (rating : field Z)
    (review_text : field string) (l : list Review)
    : option (list Review * list Review) :=
  match l with
  | [] => Some ([], [])
  | r :: l' =>
      match update_rows now id rating review_text l' with
      | None => None
      | Some (tbl, ret) =>
          if r_id r =? id then
            match updated_row now rating review_text r with
            | Some r' => Some (r' :: tbl, r' :: ret)
            | None => None
            end
          else Some (r :: tbl, ret)
      end
  end.

Definition update_review (db : DB) (now : Z) (id : Z) (rating : field Z)
    (review_text : field string) : option (DB * list Review) :=
  match Pg.int4_of_number id,
        match rating with Val n => Pg.int4_of_number n | _ => Some 0 end with
  | Some n, Some _ =>
      match update_rows now n rating review_text (reviews db) with
      | Some (tbl, ret) => Some (set_reviews db tbl (reviews_id_seq db), ret)
      | None => None
      end
  | _, _ => None
  end.

(** *** DELETE FROM reviews WHERE id = $1 RETURNING * *)

Definition delete_review_row (db : DB) (id : Z) : option (DB * list Review) :=
  match Pg.int4_of_number id with
  | Some n =>
      Some (set_reviews db (filter (fun r => negb (r_id r =? n)) (reviews db))
              (reviews_id_seq db),
            filter (fun r => r_id r =? n) (reviews db))
  | None => None
  end.

(** *** Sample data

    [createTables] on a fresh database, then [insertSampleData]: the five
    sample books are stored when the users table is empty. *)

Definition sample_books : list (string * string * string * string * Z * string) :=
  [ ("The Great Gatsby", "F. Scott Fitzgerald", "Classic Literature",
     "A classic American novel about the Jazz Age", 1925, "9780743273565");
    ("To Kill a Mockingbird", "Harper Lee", "Classic Literature",
     "A story of racial injustice and childhood innocence", 1960,
     "9780446310789");
    ("1984", "George Orwell", "Dystopian Fiction",
     "A dystopian novel about totalitarian control", 1949, "9780451524935");
    ("Pride and Prejudice", "Jane Austen", "Romance",
     "A romantic novel about manners and marriage", 1813, "9780141439518");
    ("The Catcher in the Rye", "J.D. Salinger", "Coming-of-age",
     "A controversial novel about teenage rebellion", 1951, "9780316769174")
  ]%string.

Definition insert_sample (now : Z) (db : DB)
    (row : string * string * string * string * Z * string) : DB :=
  let '(title, author, genre, description, year, isbn) := row in
  fst (insert_book db now (Some title) (Some author) (Some genre)
         (Some description) (Some year) (Some isbn) None).

Definition insertSampleData (now : Z) (db : DB) : DB :=
  if (Z.of_nat (List.length (users db)) >? 0) then db
  else fold_left (insert_sample now) sample_books db.

Definition createTables (now : Z) : DB := insertSampleData now empty_db.

(** ** Responses *)

(** A book with the columns the listing queries add: the creator's username
    (LEFT JOIN), and the sum and number of its ratings, from which
    [COALESCE(AVG(r.rating), 0)] and [COUNT(r.id)] are formed.  The decimal
    formatting of the average is not modelled. *)
Record BookRow := mkBookRow {
  br_book : Book;
  br_created_by_username : option string;
  br_rating_sum : Z;
  br_review_count : Z
}.

Record PageInfo := mkPageInfo {
  current_page : Z;
  total_pages : Z;
  total_items : Z;
  has_next : bool;
  has_prev : bool
}.

(** The JSON bodies; the constant [message] of a success is left out. *)
Inductive Body :=
| BError (error : string)
| BSignup (id : Z) (username email : string) (created_at : Z) (token : string)
| BLogin (id : Z) (username email : string) (token : string)
| BBook (book : Book)
| BReview (review : option Review) (username : string)
| BDeleted (deleted_review : option Review)
| BBookDetail (book : BookRow) (reviews : list (Review * string))
              (pagination : PageInfo)
| BSearch (query : string) (books : list BookRow) (pagination : PageInfo).

Record Response := mkResponse { status : Z; body : Body }.

Definition json_error (code : Z) (msg : string) : Response :=
  mkResponse code (BError msg).

(** What a middleware does: answer, or call [next()]. *)
Inductive Middleware (A : Type) : Type :=
| Respond : Response -> Middleware A
| Next : A -> Middleware A.
Arguments Respond {A} _.
Arguments Next {A} _.

(** [req.user], as [authenticateToken] sets it. *)
Record AuthUser := mkAuthUser {
  au_id : Z;
  au_username : string;
  au_email : string
}.

(** Outcome of [jwt.verify]: the payload's [userId], or the error thrown. *)
Inductive JwtResult :=
| Decoded (userId : Z)
| JsonWebTokenError
| TokenExpiredError
| OtherError.

(** What a request reads from its environment: the clock, the calendar
    year, the salt bcrypt draws and the [JWT_EXPIRES_IN] setting. *)
Record Env := mkEnv {
  now : Z;
  year : Z;
  salt : string;
  JWT_EXPIRES_IN : option string
}.

(** ** Helpers of the handlers *)

Fixpoint split_chars (sep : ascii) (cur : chars) (s : chars) : list string :=
  match s with
  | [] => [string_of_list_ascii (rev cur)]
  | c :: s' =>
      if (c =? sep)%char
      then string_of_list_ascii (rev cur) :: split_chars sep [] s'
      else split_chars sep (c :: cur) s'
  end.

(** [s.split(' ')] *)
Definition split_space (s : string) : list string :=
  split_chars " "%char [] (list_ascii_of_string s).

Definition email_char (c : ascii) : bool :=
  negb (Js.isspace c) && negb (c =? "@")%char.

Fixpoint split_at_first (sep : ascii) (s : chars) : option (chars * chars) :=
  match s with
  | [] => None
  | c :: s' =>
      if (c =? sep)%char then Some ([], s')
      else match split_at_first sep s' with
           | Some (a, b) => Some (c :: a, b)
           | None => None
           end
  end.

(** Some dot of [t] has a character after it. *)
Fixpoint dot_not_last (t : chars) : bool :=
  match t with
  | [] => false
  | c :: t' =>
      match t' with
      | [] => false
      | _ :: _ => (c =? ".")%char || dot_not_last t'
      end
  end.

(** The test of the regular expression of [validateEmail]: a non-empty
    local part, one at-sign, and a domain with a dot that is neither its
    first nor its last character; no white space and no second at-sign. *)
Definition validateEmail (email : string) : bool :=
  match split_at_first "@"%char (list_ascii_of_string email) with
  | Some (loc, dom) =>
      match loc, dom with
      | _ :: _, _ :: dom' =>
          forallb email_char loc && forallb email_char dom
          && dot_not_last dom'
      | _, _ => false
      end
  | None => false
  end.

Definition validatePassword (password : field string) : bool :=
  truthy_str password
  && match password with Val s => 6 <=? strlen s | _ => false end.

Definition longer_than (n : Z) (f : field string) : bool :=
  match f with Val s => n <? strlen s | _ => false end.

Definition shorter_than (n : Z) (f : field string) : bool :=
  match f with Val s => strlen s <? n | _ => false end.

Definition num_lt (f : field Z) (n : Z) : bool :=
  match f with Val v => v <? n | _ => false end.

Definition num_gt (f : field Z) (n : Z) : bool :=
  match f with Val v => n <? v | _ => false end.

(** [Math.ceil(total / limit)] *)
Definition ceil_div (total limit : Z) : Z := - ((- total) / limit).

Definition page_info (p : Pagination) (total : Z) : PageInfo :=
  let totalPages := ceil_div total (pg_limit p) in
  mkPageInfo (pg_page p) totalPages total
    (pg_page p <? totalPages) (1 <? pg_page p).

Definition book_row (db : DB) (b : Book) : BookRow :=
  let rs := filter (fun r => r_book_id r =? b_id b) (reviews db) in
  mkBookRow b
    (match b_created_by b with
     | Some uid =>
         option_map u_username
           (find (fun u => u_id u =? uid) (users db))
     | None => None
     end)
    (fold_right Z.add 0 (map r_rating rs))
    (Z.of_nat (List.length rs)).

(** [SELECT username FROM users WHERE id = $1], then [rows[0].username]. *)
Definition username_of (db : DB) (id : Z) : option string :=
  match Pg.int4_of_number id with
  | Some n => option_map u_username (find (fun u => u_id u =? n) (users db))
  | None => None
  end.

(** ** The middlewares and the route handlers *)

Section Handlers.

(** bcrypt, jsonwebtoken (with the server's secret) and the full-text
    match of PostgreSQL are taken as they come. *)
Variable bcrypt_hash : string -> string -> string.
Variable bcrypt_compare : string -> string -> bool.
Variable jwt_sign : Z -> string -> Z -> string.
Variable jwt_verify : string -> Z -> JwtResult.
Variable fts_match : string -> string -> bool.

(** *** [middleware/auth.js] *)

Definition authenticateToken (env : Env) (db : DB)
    (authorization : option string) : Middleware AuthUser :=
  let token :=
    match authorization with
    | Some h => if String.eqb h "" then None else nth_error (split_space h) 1
    | None => None
    end in
  match token with
  | None => Respond (json_error 401 "Access token required")
  | Some t =>
      if String.eqb t "" then Respond (json_error 401 "Access token required")
      else
        match jwt_verify t (now env) with
        | Decoded userId =>
            match Pg.int4_of_number userId with
            | Some n =>
                match filter (fun u => u_id u =? n) (users db) with
                | [] => Respond (json_error 401 "Invalid token - user not found")
                | u :: _ =>
                    Next (mkAuthUser (u_id u) (u_username u) (u_email u))
                end
            | None => Respond (json_error 500 "Authentication error")
            end
        | JsonWebTokenError => Respond (json_error 401 "Invalid token")
        | TokenExpiredError => Respond (json_error 401 "Token expired")
        | OtherError => Respond (json_error 500 "Authentication error")
        end
  end.

(** The raw route parameter is bound to [WHERE id = $1]. *)
Definition checkReviewOwnership (db : DB) (id : string) (user : AuthUser)
    : Middleware unit :=
  match Pg.int4in id with
  | Some reviewId =>
      match filter (fun r => r_id r =? reviewId) (reviews db) with
      | [] => Respond (json_error 404 "Review not found")
      | r :: _ =>
          if negb (r_user_id r =? au_id user)
          then Respond (json_error 403 "You can only modify your own reviews")
          else Next tt
      end
  | None => Respond (json_error 500 "Authorization error")
  end.

(** *** [routes/auth.js] *)

Definition generateToken (env : Env) (userId : Z) : string :=
  jwt_sign userId
    (match JWT_EXPIRES_IN env with
     | Some e => if String.eqb e "" then "7d"%string else e
     | None => "7d"%string
     end)
    (now env).

Definition post_signup (env : Env) (db : DB)
    (username email password : field string) : DB * Response :=
  match username, email, password with
  | Val un, Val em, Val pw =>
      if negb (truthy_str username) || negb (truthy_str email)
         || negb (truthy_str password)
      then (db, json_error 400 "Username, email, and password are required")
      else if negb (validateEmail em)
      then (db, json_error 400 "Please provide a valid email address")
      else if negb (validatePassword password)
      then (db, json_error 400 "Password must be at least 6 characters long")
      else if (strlen un <? 3) || (50 <? strlen un)
      then (db, json_error 400 "Username must be between 3 and 50 characters")
      else
        let existingUser :=
          filter (fun u => String.eqb (u_email u) (Js.toLowerCase em)
                           || String.eqb (u_username u) (Js.toLowerCase un))
                 (users db) in
        match existingUser with
        | _ :: _ =>
            (db, json_error 409 "User with this email or username already exists")
        | [] =>
            let passwordHash := bcrypt_hash pw (salt env) in
            match insert_user db (now env) un (Js.toLowerCase em)
                    passwordHash with
            | (db', Some newUser) =>
                (db', mkResponse 201
                        (BSignup (u_id newUser) (u_username newUser)
                           (u_email newUser) (u_created_at newUser)
                           (generateToken env (u_id newUser))))
            | (db', None) =>
                (db', json_error 500 "Internal server error during registration")
            end
        end
  | _, _, _ => (db, json_error 400 "Username, email, and password are required")
  end.


Definition post_login (env : Env) (db : DB) (email password : field string)
    : DB * Response :=
  match email, password with
  | Val em, Val pw =>
      if negb (truthy_str email) || negb (truthy_str password)
      then (db, json_error 400 "Email and password are required")
      else
        match filter (fun u => String.eqb (u_email u) (Js.toLowerCase em))
                (users db) with
        | [] => (db, json_error 401 "Invalid email or password")
        | user :: _ =>
            if negb (bcrypt_compare pw (u_password_hash user))
            then (db, json_error 401 "Invalid email or password")
            else
              (db, mkResponse 200
                     (BLogin (u_id user) (u_username user) (u_email user)
                        (generateToken env (u_id user))))
        end
  | _, _ => (db, json_error 400 "Email and password are required")
  end.

(** *** [routes/books.js] *)

Definition duplicate_book (title author : string) (b : Book) : bool :=
  String.eqb (Pg.lower (b_title b)) (Pg.lower title)
  && String.eqb (Pg.lower (b_author b)) (Pg.lower author).

Definition post_books (env : Env) (db : DB) (user : AuthUser)
    (title author genre description : field string)
    (published_year : field Z) (isbn : field string) : DB * Response :=
  match title, author with
  | Val t, Val a =>
      if negb (truthy_str title) || negb (truthy_str author)
      then (db, json_error 400 "Title and author are required")
      else if longer_than 255 title || longer_than 255 author
      then (db, json_error 400 "Title and author must be less than 255 characters")
      else if truthy_num published_year
              && (num_lt published_year 0 || num_gt published_year (year env))
      then (db, json_error 400 "Please provide a valid publication year")
      else
        match filter (duplicate_book t a) (books db) with
        | _ :: _ =>
            (db, json_error 409 "A book with this title and author already exists")
        | [] =>
            match insert_book db (now env) (Some t) (Some a)
                    (to_sql genre) (to_sql description)
                    (to_sql published_year) (to_sql isbn)
                    (Some (au_id user)) with
            | (db', Some newBook) => (db', mkResponse 201 (BBook newBook))
            | (db', None) =>
                (db', json_error 500 "Internal server error while adding book")
            end
        end
  | _, _ => (db, json_error 400 "Title and author are required")
  end.

Definition newest_first (x y : Review * string) : bool :=
  r_created_at (fst y) <=? r_created_at (fst x).

(** [reviews r JOIN users u ON r.user_id = u.id WHERE r.book_id = $1] *)
Definition book_reviews (db : DB) (bookId : Z) : list (Review * string) :=
  flat_map
    (fun r =>
       map (fun u => (r, u_username u))
         (filter (fun u => u_id u =? r_user_id r) (users db)))
    (filter (fun r => r_book_id r =? bookId) (reviews db)).

Definition get_book (db : DB) (id : string) (page limit : option string)
    : Response :=
  let p := getPagination page limit in
  match Js.parseInt id with
  | None => json_error 400 "Invalid book ID"
  | Some bookId =>
      match Pg.int4_of_number bookId with
      | None => json_error 500 "Internal server error while fetching book details"
      | Some n =>
          match filter (fun b => b_id b =? n) (books db) with
          | [] => json_error 404 "Book not found"
          | book :: _ =>
              match Pg.limit_offset (pg_limit p) (pg_offset p)
                      (Pg.order_by newest_first (book_reviews db n)) with
              | None =>
                  json_error 500 "Internal server error while fetching book details"
              | Some rows =>
                  let totalReviews :=
                    Z.of_nat (List.length
                      (filter (fun r => r_book_id r =? n) (reviews db))) in
                  mkResponse 200
                    (BBookDetail (book_row db book) rows
                       (page_info p totalReviews))
              end
          end
      end
  end.

(** *** [routes/reviews.js] *)

Definition post_review (env : Env) (db : DB) (user : AuthUser) (id : string)
    (rating : field Z) (review_text : field string) : DB * Response :=
  match Js.parseInt id with
  | None => (db, json_error 400 "Invalid book ID")
  | Some bookId =>
      if negb (truthy_num rating) || num_lt rating 1 || num_gt rating 5
      then (db, json_error 400 "Rating must be between 1 and 5")
      else if truthy_str review_text && longer_than 2000 review_text
      then (db, json_error 400 "Review text must be less than 2000 characters")
      else
        match Pg.int4_of_number bookId, Pg.int4_of_number (au_id user) with
        | Some b, Some u =>
            match filter (fun bk => b_id bk =? b) (books db) with
            | [] => (db, json_error 404 "Book not found")
            | _ :: _ =>
                match filter (fun r => (r_book_id r =? b) && (r_user_id r =? u))
                        (reviews db) with
                | _ :: _ =>
                    (db, json_error 409
                      "You have already reviewed this book. Use PUT to update your review.")
                | [] =>
                    match insert_review db (now env) bookId (au_id user)
                            (to_sql rating) (to_sql review_text) with
                    | (db', Some newReview) =>
                        match username_of db' (au_id user) with
                        | Some name =>
                            (db', mkResponse 201
                                    (BReview (Some newReview) name))
                        | None =>
                            (db', json_error 500
                              "Internal server error while submitting review")
                        end
                    | (db', None) =>
                        (db', json_error 500
                          "Internal server error while submitting review")
                    end
                end
            end
        | None, _ =>
            (db, json_error 500 "Internal server error while submitting review")
        | Some b, None =>
            match filter (fun bk => b_id bk =? b) (books db) with
            | [] => (db, json_error 404 "Book not found")
            | _ :: _ =>
                (db, json_error 500 "Internal server error while submitting review")
            end
        end
  end.

(** The callback of [PUT /reviews/:id], run after both middlewares. *)
Definition put_review (env : Env) (db : DB) (user : AuthUser) (id : string)
    (rating : field Z) (review_text : field string) : DB * Response :=
  match Js.parseInt id with
  | None => (db, json_error 400 "Invalid review ID")
  | Some reviewId =>
      if truthy_num rating && (num_lt rating 1 || num_gt rating 5)
      then (db, json_error 400 "Rating must be between 1 and 5")
      else if truthy_str review_text && longer_than 2000 review_text
      then (db, json_error 400 "Review text must be less than 2000 characters")
      else if is_undefined rating && is_undefined review_text
      then (db, json_error 400
             "At least one field (rating or review_text) must be provided")
      else
        match update_review db (now env) reviewId rating review_text with
        | Some (db', rows) =>
            match username_of db' (au_id user) with
            | Some name =>
                (db', mkResponse 200 (BReview (hd_error rows) name))
            | None =>
                (db', json_error 500 "Internal server error while updating review")
            end
        | None => (db, json_error 500 "Internal server error while updating review")
        end
  end.

(** The callback of [DELETE /reviews/:id], run after both middlewares. *)
Definition delete_review (db : DB) (id : string) : DB * Response :=
  match Js.parseInt id with
  | None => (db, json_error 400 "Invalid review ID")
  | Some reviewId =>
      match delete_review_row db reviewId with
      | Some (db', rows) => (db', mkResponse 200 (BDeleted (hd_error rows)))
      | None => (db, json_error 500 "Internal server error while deleting review")
      end
  end.

(** *** [routes/search.js] *)

(** The CASE expression of the search statement; [pattern] is [$2]. *)
Definition relevance_score (term pattern : string) (b : Book) : Z :=
  if String.eqb (Pg.lower (b_title b)) (Pg.lower term) then 4
  else if String.eqb (Pg.lower (b_author b)) (Pg.lower term) then 4
  else if Pg.LIKE (Pg.lower (b_title b)) (Pg.lower pattern) then 3
  else if Pg.LIKE (Pg.lower (b_author b)) (Pg.lower pattern) then 3
  else 1.

(** The WHERE clause of the search statement. *)
Definition search_where (term pattern : string) (b : Book) : bool :=
  Pg.LIKE (Pg.lower (b_title b)) (Pg.lower pattern)
  || Pg.LIKE (Pg.lower (b_author b)) (Pg.lower pattern)
  || fts_match (b_title b ++ " " ++ b_author b)%string term.

(** ORDER BY relevance_score DESC, b.created_at DESC *)
Definition search_first (x y : BookRow * Z) : bool :=
  (snd y <? snd x)
  || ((snd x =? snd y)
      && (b_created_at (br_book (fst y)) <=? b_created_at (br_book (fst x)))).

Definition like_pattern (searchTerm : string) : string :=
  ("%" ++ searchTerm ++ "%")%string.

(** The rows of the search statement, each with its [relevance_score]. *)
Definition search_rows (db : DB) (searchTerm : string) (limit offset : Z)
    : option (list (BookRow * Z)) :=
  let pattern := like_pattern searchTerm in
  Pg.limit_offset limit offset
    (Pg.order_by search_first
       (map (fun b => (book_row db b, relevance_score searchTerm pattern b))
          (filter (search_where searchTerm pattern) (books db)))).

Definition get_search (db : DB) (q page limit : option string) : Response :=
  let p := getPagination page limit in
  match q with
  | None => json_error 400 "Search query (q) is required"
  | Some q =>
      if String.eqb q "" || (strlen (Js.trim q) =? 0)
      then json_error 400 "Search query (q) is required"
      else
        let searchTerm := Js.trim q in
        if strlen searchTerm <? 2
        then json_error 400 "Search query must be at least 2 characters long"
        else
          match search_rows db searchTerm (pg_limit p) (pg_offset p) with
          | None => json_error 500 "Internal server error while searching books"
          | Some rows =>
              let totalBooks :=
                Z.of_nat (List.length
                  (filter (search_where searchTerm (like_pattern searchTerm))
                     (books db))) in
              mkResponse 200
                (BSearch searchTerm (map fst rows) (page_info p totalBooks))
          end
  end.

(** *** The routes *)

Definition route_put_review (env : Env) (db : DB)
    (authorization : option string) (id : string) (rating : field Z)
    (review_text : field string) : DB * Response :=
  match authenticateToken env db authorization with
  | Respond r => (db, r)
  | Next user =>
      match checkReviewOwnership db id user with
      | Respond r => (db, r)
      | Next _ => put_review env db user id rating review_text
      end
  end.

Definition route_delete_review (env : Env) (db : DB)
    (authorization : option string) (id : string) : DB * Response :=
  match authenticateToken env db authorization with
  | Respond r => (db, r)
  | Next user =>
      match checkReviewOwnership db id user with
      | Respond r => (db, r)
      | Next _ => delete_review db id
      end
  end.

Definition route_post_review (env : Env) (db : DB)
    (authorization : option string) (id : string) (rating : field Z)
    (review_text : field string) : DB * Response :=
  match authenticateToken env db authorization with
  | Respond r => (db, r)
  | Next user => post_review env db user id rating review_text
  end.

Definition route_post_books (env : Env) (db : DB)
    (authorization : option string)
    (title author genre description : field string)
    (published_year : field Z) (isbn : field string) : DB * Response :=
  match authenticateToken env db authorization with
  | Respond r => (db, r)
  | Next user =>
      post_books env db user title author genre description published_year isbn
  end.

(** The requests the model serves ([GET /books], which only reads, is not
    among them). *)
Inductive Request :=
| POST_signup (username email password : field string)
| POST_login (email password : field string)
| POST_books (authorization : option string)
             (title author genre description : field string)
             (published_year : field Z) (isbn : field string)
| GET_book (id : string) (page limit : option string)
| POST_review (authorization : option string) (id : string)
              (rating : field Z) (review_text : field string)
| PUT_review (authorization : option string) (id : string)
             (rating : field Z) (review_text : field string)
| DELETE_review (authorization : option string) (id : string)
| GET_search (q page limit : option string).

Definition handle (env : Env) (db : DB) (req : Request) : DB * Response :=
  match req with
  | POST_signup u e p => post_signup env db u e p
  | POST_login e p => post_login env db e p
  | POST_books h t a g d y i => route_post_books env db h t a g d y i
  | GET_book id p l => (db, get_book db id p l)
  | POST_review h id r t => route_post_review env db h id r t
  | PUT_review h id r t => route_put_review env db h id r t
  | DELETE_review h id => route_delete_review env db h id
  | GET_search q p l => (db, get_search db q p l)
  end.

(** The states the server can be in: the database as the setup script
    leaves it, then any sequence of requests. *)
Inductive reachable : DB -> Prop :=
| reach_setup : forall t0, reachable (createTables t0)
| reach_handle : forall env db req,
    reachable db -> reachable (fst (handle env db req)).

End Handlers.

(** ** Stand-ins for the external services

    Simple functions of the right types, used where a statement is
    evaluated on concrete requests. *)

Module Stub.

Definition bcrypt_hash (password salt : string) : string :=
  (salt ++ "$" ++ password)%string.

Definition bcrypt_compare (password hash : string) : bool :=
  String.eqb hash (bcrypt_hash password "salt").

Definition jwt_sign (userId : Z) (expiresIn : string) (iat : Z) : string :=
  if userId =? 1 then "1"%string
  else if userId =? 2 then "2"%string else "0"%string.

Definition jwt_verify (token : string) (t : Z) : JwtResult :=
  match Js.parseInt token with
  | Some n => if n =? 0 then TokenExpiredError else Decoded n
  | None => JsonWebTokenError
  end.

Definition fts_match (document query : string) : bool := false.

Definition env (t : Z) : Env := mkEnv t 2025 "salt" None.

Definition handle : Env -> DB -> Request -> DB * Response :=
  handle bcrypt_hash bcrypt_compare jwt_sign jwt_verify fts_match.

Definition reachable : DB -> Prop :=
  reachable bcrypt_hash bcrypt_compare jwt_sign jwt_verify fts_match.

(** Requests, each at its time, one after the other. *)
Definition run (db : DB) (reqs : list (Z * Request)) : DB :=
  fold_left (fun db tr => fst (handle (env (fst tr)) db (snd tr))) reqs db.

Definition alice : option string := Some "Bearer 1"%string.
Definition bob : option string := Some "Bearer 2"%string.

(** Alice and Bob sign up, Alice adds "Dune" (book 6) and reviews it
    (review 1). *)
Definition signups : list (Z * Request) :=
  [ (10, POST_signup (Val "alice") (Val "alice@x.com") (Val "secret1"));
    (20, POST_signup (Val "bob") (Val "bob@x.com") (Val "secret2")) ]%string.

Definition with_users : DB := run (createTables 0) signups.

Definition with_dune : DB :=
  run with_users
    [ (30, POST_books alice (Val "Dune") (Val "Frank Herbert") Undefined
             Undefined (Val 1965) Undefined) ]%string.

Definition with_review : DB :=
  run with_dune [ (40, POST_review alice "6" (Val 5) (Val "great")) ]%string.

End Stub.

(** ** The constraints of the reviews table

    PRIMARY KEY (id), UNIQUE (book_id, user_id), INTEGER columns, the two
    foreign keys and the CHECK on the rating, as predicates on a state. *)

Definition review_key (r : Review) : Z * Z := (r_book_id r, r_user_id r).

Definition row_ok (db : DB) (r : Review) : Prop :=
  Pg.in_int4 (r_book_id r) = true /\ Pg.in_int4 (r_user_id r) = true
  /\ book_exists db (r_book_id r) = true
  /\ user_exists db (r_user_id r) = true
  /\ between 1 5 (r_rating r) = true.

Definition db_wf (db : DB) : Prop :=
  NoDup (map r_id (reviews db))
  /\ NoDup (map review_key (reviews db))
  /\ Forall (row_ok db) (reviews db).

(** What [UPDATE ... WHERE id = n] does to one row. *)
Definition row_update (now : Z) (n : Z) (rating : field Z)
    (review_text : field string) (x x' : Review) : Prop :=
  if r_id x =? n then updated_row now rating review_text x = Some x'
  else x' = x.

(** ** Notions of the search ranking *)

(** The characters that [LIKE] does not match literally. *)
Definition is_wildcard (c : ascii) : bool :=
  (c =? "%")%char || (c =? "_")%char || (c =? "\")%char.

Definition literal (q : string) : bool :=
  forallb (fun c => negb (is_wildcard c)) (list_ascii_of_string q).

(** [t] contains [q] as a substring. *)
Definition substring (q t : string) : Prop :=
  exists a b : string, t = (a ++ q ++ b)%string.

Fixpoint prefix (q t : chars) : bool :=
  match q, t with
  | [], _ => true
  | c :: q', x :: t' => (x =? c)%char && prefix q' t'
  | _ :: _, [] => false
  end.

(** A test for [substring], on the characters. *)
Fixpoint infix (q t : chars) : bool :=
  prefix q t || match t with [] => false | _ :: t' => infix q t' end.

(** The order of the search results: higher score first and, among equal
    scores, newer book first. *)
Definition ranked_before (x y : BookRow * Z) : Prop :=
  snd y < snd x
  \/ (snd y = snd x
      /\ b_created_at (br_book (fst y)) <= b_created_at (br_book (fst x))).

(** ** Notions of the statements *)


(** A book that matches title and author without regard to case. *)
Definition is_duplicate (db : DB) (title author : string) : Prop :=
  exists b, In b (books db)
            /\ Pg.lower (b_title b) = Pg.lower title
            /\ Pg.lower (b_author b) = Pg.lower author.





Definition book_conflict : Response :=
  json_error 409 "A book with this title and author already exists".


(** ** The book listing ([routes/books.js], GET /books)

    The handler only reads.  Its answer is an error response, or the books
    with the pagination, sent with status 200. *)





(** ** Further notions of the statements *)

(** Every stored id is below its sequence, and the sequences are positive. *)
Definition seq_ok (db : DB) : Prop :=
  (1 <= users_id_seq db /\ Forall (fun u => u_id u < users_id_seq db) (users db))
  /\ (1 <= books_id_seq db
      /\ Forall (fun b => b_id b < books_id_seq db) (books db))
  /\ (1 <= reviews_id_seq db
      /\ Forall (fun r => r_id r < reviews_id_seq db) (reviews db)).

(** The constraints of the users table, and what signup adds to them: a
    stored email is in lower case. *)
Definition users_ok (db : DB) : Prop :=
  NoDup (map u_id (users db))
  /\ NoDup (map u_username (users db))
  /\ NoDup (map u_email (users db))
  /\ Forall (fun u => Js.toLowerCase (u_email u) = u_email u) (users db).

(** The window a page request cuts out of the rows of a statement. *)
Definition page_window {A} (page limit : option string) (rows : list A)
    : list A :=
  let p := getPagination page limit in
  match Pg.limit_offset (pg_limit p) (pg_offset p) rows with
  | Some w => w
  | None => []
  end.

(** A token as it travels in the Authorization header. *)
Definition bearer (token : string) : option string :=
  Some ("Bearer " ++ token)%string.

Definition no_space (s : string) : bool :=
  forallb (fun c => negb (c =? " ")%char) (list_ascii_of_string s).

Definition email_part (s : string) : Prop :=
  s <> ""%string
  /\ forallb email_char (list_ascii_of_string s) = true.

(** The ways a request can change the database: not at all, by one
    INSERT, by the UPDATE of the reviews with one id, or by the DELETE of
    the reviews with one id. *)
Inductive effect (db db' : DB) : Prop :=
| eff_none : db' = db -> effect db db'
| eff_user : forall t un em ph,
    db' = fst (insert_user db t un (Js.toLowerCase em) ph) -> effect db db'
| eff_book : forall t ti au g d y i c,
    db' = fst (insert_book db t ti au g d y i c) -> effect db db'
| eff_review : forall t b u rt tx,
    db' = fst (insert_review db t b u rt tx) -> effect db db'
| eff_update : forall t n rating txt,
    users db' = users db -> books db' = books db ->
    users_id_seq db' = users_id_seq db ->
    books_id_seq db' = books_id_seq db ->
    reviews_id_seq db' = reviews_id_seq db ->
    Forall2 (row_update t n rating txt) (reviews db) (reviews db') ->
    effect db db'
| eff_delete : forall n,
    users db' = users db -> books db' = books db ->
    users_id_seq db' = users_id_seq db ->
    books_id_seq db' = books_id_seq db ->
    reviews_id_seq db' = reviews_id_seq db ->
    reviews db' = filter (fun r => negb (r_id r =? n)) (reviews db) ->
    effect db db'.


(** The pages "1", "2", "3" as query parameters. *)
Definition page_strings (i : nat) : option string :=
  match i with
  | O => Some "1"%string
  | 1%nat => Some "2"%string
  | _ => Some "3"%string
  end.

(** A sample row fits the columns of the books table. *)
Definition sample_fits
    (r : string * string * string * string * Z * string) : Prop :=
  let '(title, author, genre, description, year, isbn) := r in
  strlen title <= 255 /\ strlen author <= 255 /\ strlen genre <= 100
  /\ Pg.in_int4 year = true /\ strlen isbn <= 20.

Definition sample_key
    (r : string * string * string * string * Z * string) : string * string :=
  let '(title, author, _, _, _, _) := r in (title, author).

Definition book_key (b : Book) : string * string := (b_title b, b_author b).

(** * Properties *)

Example parseInt_12abc : Js.parseInt "12abc" = Some 12.
Proof. reflexivity. Qed.

Example parseInt_hex : Js.parseInt " -0x1F" = Some (-31).
Proof. reflexivity. Qed.

Example parseInt_abc : Js.parseInt "abc" = None.
Proof. reflexivity. Qed.

Example int4in_padded : Pg.int4in " +12 " = Some 12.
Proof. reflexivity. Qed.

Example int4in_12abc : Pg.int4in "12abc" = None.
Proof. reflexivity. Qed.

Example int4in_big : Pg.int4in "2147483648" = None.
Proof. reflexivity. Qed.

Example getPagination_default :
  getPagination None None = mkPagination 10 0 1.
Proof. reflexivity. Qed.

Example like_wildcards :
  Pg.LIKE "dune" "%d_n%" = true /\ Pg.LIKE "dune" "%d\_n%" = false
  /\ Pg.LIKE "d_ne" "%d\_n%" = true.
Proof. repeat split. Qed.

Example validateEmail_examples :
  validateEmail "alice@x.com" = true /\ validateEmail "alice@x" = false
  /\ validateEmail "a b@x.com" = false /\ validateEmail "a@b@x.com" = false
  /\ validateEmail "a@x.y.z" = true /\ validateEmail "a@.z" = false.
Proof. repeat split. Qed.

Example createTables_books :
  map b_id (books (createTables 0)) = [1; 2; 3; 4; 5]
  /\ books_id_seq (createTables 0) = 6.
Proof. split; reflexivity. Qed.

(** ** Parsing integers: the database against [parseInt] *)

Ltac zbool :=
  unfold is_digit, Pg.in_int4, Pg.in_int8 in *; unfold between in *;
  cbv zeta in *;
  repeat match goal with
    | |- context [(?a <=? ?b)] => destruct (Z.leb_spec a b)
    | |- context [(?a <? ?b)] => destruct (Z.ltb_spec a b)
    | |- context [(?a =? ?b)] => destruct (Z.eqb_spec a b)
    | H : context [(?a <=? ?b)] |- _ => destruct (Z.leb_spec a b)
    | H : context [(?a <? ?b)] |- _ => destruct (Z.ltb_spec a b)
    | H : context [(?a =? ?b)] |- _ => destruct (Z.eqb_spec a b)
    end;
  simpl in *; try discriminate; try lia; auto.

Lemma digit_val_10 (c : ascii) :
  Js.digit_val 10 c = if is_digit c then Some (code c - 48) else None.
Proof. unfold Js.digit_val. zbool. Qed.

Lemma pg_space_is_js_space (c : ascii) :
  Pg.isspace c = true -> Js.isspace c = true.
Proof.
  unfold Pg.isspace, Js.isspace. cbv zeta. intros H. rewrite H. reflexivity.
Qed.

Lemma trimStart_skip_spaces (l : chars) :
  Js.trimStart l = Js.trimStart (Pg.skip_spaces l).
Proof.
  induction l as [|c l IH]; simpl; auto.
  destruct (Pg.isspace c) eqn:E.
  - rewrite (pg_space_is_js_space c E). exact IH.
  - reflexivity.
Qed.

Lemma digit_not_space (c : ascii) :
  is_digit c = true -> Js.isspace c = false /\ Pg.isspace c = false.
Proof. unfold Js.isspace, Pg.isspace. cbv zeta. intros H. split; zbool. Qed.

Lemma digits_prefix_take_digits (t : chars) (a : Z) :
  Js.digits_prefix 10 (Some a) t = Some (fst (Pg.take_digits a t)).
Proof.
  revert a. induction t as [|c t IH]; intros a; simpl; auto.
  rewrite digit_val_10. destruct (is_digit c); auto.
Qed.

Lemma eqb_char_code (c d : ascii) : (c =? d)%char = true -> code c = code d.
Proof. intros H. apply Ascii.eqb_eq in H. now subst. Qed.

(** Whatever the database reads as an integer, [parseInt] reads as the same
    integer. *)
Lemma int4in_parseInt (s : string) (n : Z) :
  Pg.int4in s = Some n -> Js.parseInt s = Some n.
Proof.
  unfold Pg.int4in, Js.parseInt.
  rewrite trimStart_skip_spaces.
  destruct (Pg.skip_spaces (list_ascii_of_string s)) as [|c0 r] eqn:Es; simpl.
  - discriminate.
  - assert (Hhex : forall (c : ascii) (t : chars) (neg : bool),
        is_digit c = true ->
        (let '(v, rest) := Pg.take_digits 0 (c :: t) in
         match Pg.skip_spaces rest with
         | [] => let m := if neg then - v else v in
                 if Pg.in_int4 m then Some m else None
         | _ :: _ => None
         end) = Some n ->
        (let '(radix, s3) := Js.strip_hex (c :: t) in
         option_map (Z.mul (if neg then -1 else 1))
           (Js.digits_prefix radix None s3)) = Some n).
    { intros c t neg Hc H.
      assert (Hs : Js.strip_hex (c :: t) = (10, c :: t)).
      { unfold Js.strip_hex. destruct t as [|x t']; auto.
        destruct (c =? "0")%char eqn:E0; auto.
        destruct ((x =? "x")%char || (x =? "X")%char) eqn:Ex; auto.
        exfalso. simpl in H. rewrite Hc in H.
        assert (Hx : is_digit x = false /\ Pg.isspace x = false).
        { apply orb_true_iff in Ex.
          destruct Ex as [Ex|Ex]; apply Ascii.eqb_eq in Ex; subst x;
            split; reflexivity. }
        destruct Hx as [Hd Hp]. rewrite Hd in H. simpl in H.
        rewrite Hp in H. discriminate. }
      rewrite Hs. simpl. rewrite digit_val_10, Hc.
      rewrite digits_prefix_take_digits.
      simpl in H. rewrite Hc in H.
      destruct (Pg.take_digits (code c - 48) t) as [v rest].
      simpl in *.
      destruct (Pg.skip_spaces rest); try discriminate.
      destruct (Pg.in_int4 (if neg then - v else v)); try discriminate.
      inversion H. destruct neg; f_equal; lia. }
    destruct (c0 =? "-")%char eqn:Em.
    + apply Ascii.eqb_eq in Em. subst c0.
      destruct r as [|c t]; try discriminate.
      destruct (is_digit c) eqn:Hc; try discriminate.
      intros H. change (Js.isspace "-") with false. cbv iota.
      change (strip_sign ("-"%char :: c :: t)) with (true, c :: t).
      now apply (Hhex c t true).
    + destruct (c0 =? "+")%char eqn:Ep.
      * apply Ascii.eqb_eq in Ep. subst c0.
        destruct r as [|c t]; try discriminate.
        destruct (is_digit c) eqn:Hc; try discriminate.
        intros H. change (Js.isspace "+") with false. cbv iota.
        change (strip_sign ("+"%char :: c :: t)) with (false, c :: t).
        now apply (Hhex c t false).
      * destruct (is_digit c0) eqn:Hc; try discriminate.
        intros H.
        destruct (digit_not_space c0 Hc) as [Hj _]. rewrite Hj.
        unfold strip_sign. rewrite Em, Ep. now apply (Hhex c0 r false).
Qed.

(** ** The pagination helper *)

Lemma getPagination_range (page limit : option string) :
  pg_limit (getPagination page limit) <= 50
  /\ 0 <= pg_offset (getPagination page limit).
Proof. unfold getPagination. simpl. lia. Qed.




(** ** The middlewares *)

Lemma hd_filter_find {A} (p : A -> bool) (l : list A) :
  hd_error (filter p l) = find p l.
Proof.
  induction l as [|x l IH]; simpl; auto. destruct (p x); simpl; auto.
Qed.

Lemma filter_nil_find {A} (p : A -> bool) (l : list A) :
  filter p l = [] -> find p l = None.
Proof. intros H. rewrite <- hd_filter_find, H. reflexivity. Qed.


Lemma find_filter_cases {A} (p : A -> bool) (l : list A) :
  match find p l with
  | None => filter p l = []
  | Some x => exists t, filter p l = x :: t
  end.
Proof.
  rewrite <- hd_filter_find. destruct (filter p l); simpl; eauto.
Qed.

Section Middlewares.

Variable jwt_verify : string -> Z -> JwtResult.

Lemma authenticateToken_respond env db h r :
  authenticateToken jwt_verify env db h = Respond r ->
  status r = 401 \/ status r = 500.
Proof.
  unfold authenticateToken.
  repeat match goal with
    | |- context [match ?x with _ => _ end] => destruct x
    end; intros H; inversion H; simpl; auto.
Qed.


End Middlewares.

(** The three outcomes of the ownership check on a well-formed id, and the
    fourth on any other. *)
Lemma checkReviewOwnership_cases db id user :
  match Pg.int4in id with
  | None =>
      checkReviewOwnership db id user = Respond (json_error 500 "Authorization error")
  | Some n =>
      match find (fun r => r_id r =? n) (reviews db) with
      | None =>
          checkReviewOwnership db id user
          = Respond (json_error 404 "Review not found")
      | Some r =>
          if r_user_id r =? au_id user
          then checkReviewOwnership db id user = Next tt
          else checkReviewOwnership db id user
               = Respond (json_error 403 "You can only modify your own reviews")
      end
  end.
Proof.
  unfold checkReviewOwnership.
  destruct (Pg.int4in id) as [n|]; auto.
  pose proof (find_filter_cases (fun r => r_id r =? n) (reviews db)) as H.
  destruct (find (fun r => r_id r =? n) (reviews db)) as [r|].
  - destruct H as [t H]. rewrite H.
    destruct (r_user_id r =? au_id user); reflexivity.
  - rewrite H. reflexivity.
Qed.

Lemma checkReviewOwnership_next db id user :
  checkReviewOwnership db id user = Next tt ->
  exists n r, Pg.int4in id = Some n /\ Js.parseInt id = Some n
              /\ find (fun r => r_id r =? n) (reviews db) = Some r
              /\ r_user_id r = au_id user.
Proof.
  intros H. pose proof (checkReviewOwnership_cases db id user) as C.
  destruct (Pg.int4in id) as [n|] eqn:E.
  - destruct (find (fun r => r_id r =? n) (reviews db)) as [r|] eqn:F.
    + destruct (r_user_id r =? au_id user) eqn:O.
      * exists n, r. repeat split; auto using int4in_parseInt.
        now apply Z.eqb_eq.
      * rewrite C in H. discriminate.
    + rewrite C in H. discriminate.
  - rewrite C in H. discriminate.
Qed.

Lemma checkReviewOwnership_respond db id user r :
  checkReviewOwnership db id user = Respond r ->
  status r = 404 \/ status r = 403 \/ status r = 500.
Proof.
  intros H. pose proof (checkReviewOwnership_cases db id user) as C.
  destruct (Pg.int4in id) as [n|].
  - destruct (find (fun r => r_id r =? n) (reviews db)) as [x|].
    + destruct (r_user_id x =? au_id user); rewrite C in H;
        inversion H; simpl; auto.
    + rewrite C in H. inversion H; simpl; auto.
  - rewrite C in H. inversion H; simpl; auto.
Qed.

(** ** The branch "Invalid review ID" *)

Lemma put_review_valid_id env db user id rating review_text n :
  Js.parseInt id = Some n ->
  snd (put_review env db user id rating review_text)
  <> json_error 400 "Invalid review ID".
Proof.
  intros P. unfold put_review. rewrite P.
  repeat match goal with
    | |- context [if ?b then _ else _] => destruct b
    | |- context [match ?x with _ => _ end] => destruct x
    end; simpl; unfold json_error; intros H; discriminate H.
Qed.

Lemma delete_review_valid_id db id n :
  Js.parseInt id = Some n ->
  snd (delete_review db id) <> json_error 400 "Invalid review ID".
Proof.
  intros P. unfold delete_review. rewrite P.
  destruct (delete_review_row db n) as [[db' rows]|]; simpl; unfold json_error;
    intros H; discriminate H.
Qed.

(** C10.  The branch "Invalid review ID" of the update and delete handlers
    is unreachable: the ownership check binds the raw id to the integer
    column, so it calls [next()] only for an id that the database reads as
    the integer id of a stored review, and [parseInt] reads every such id as
    that same integer; for any other id the check answers 404, 403 or 500
    itself. *)
Theorem invalid_review_id_unreachable
    (jwt_verify : string -> Z -> JwtResult) env db authorization id
    rating review_text :
  (forall user,
     match checkReviewOwnership db id user with
     | Next _ =>
         exists r, In r (reviews db) /\ Pg.int4in id = Some (r_id r)
                   /\ Js.parseInt id = Some (r_id r)
     | Respond r => status r = 404 \/ status r = 403 \/ status r = 500
     end)
  /\ snd (route_put_review jwt_verify env db authorization id rating
            review_text) <> json_error 400 "Invalid review ID"
  /\ snd (route_delete_review jwt_verify env db authorization id)
     <> json_error 400 "Invalid review ID".
Proof.
  assert (A : forall r, status r = 401 \/ status r = 500 ->
                        r <> json_error 400 "Invalid review ID").
  { intros r [H|H] E; subst r; discriminate H. }
  assert (B : forall r, status r = 404 \/ status r = 403 \/ status r = 500 ->
                        r <> json_error 400 "Invalid review ID").
  { intros r [H|[H|H]] E; subst r; discriminate H. }
  split; [|split].
  - intros user.
    destruct (checkReviewOwnership db id user) as [r|[]] eqn:C.
    + eapply checkReviewOwnership_respond; eauto.
    + destruct (checkReviewOwnership_next _ _ _ C) as (n & r & I & P & F & _).
      exists r. apply find_some in F. destruct F as [Hin Hid].
      apply Z.eqb_eq in Hid. subst n. auto.
  - unfold route_put_review.
    destruct (authenticateToken jwt_verify env db authorization) as [r|user] eqn:Au.
    + simpl. apply A. eapply authenticateToken_respond; eauto.
    + destruct (checkReviewOwnership db id user) as [r|[]] eqn:C.
      * simpl. apply B. eapply checkReviewOwnership_respond; eauto.
      * destruct (checkReviewOwnership_next _ _ _ C) as (n & r & _ & P & _).
        eapply put_review_valid_id; eauto.
  - unfold route_delete_review.
    destruct (authenticateToken jwt_verify env db authorization) as [r|user] eqn:Au.
    + simpl. apply A. eapply authenticateToken_respond; eauto.
    + destruct (checkReviewOwnership db id user) as [r|[]] eqn:C.
      * simpl. apply B. eapply checkReviewOwnership_respond; eauto.
      * destruct (checkReviewOwnership_next _ _ _ C) as (n & r & _ & P & _).
        eapply delete_review_valid_id; eauto.
Qed.

(** ** What each handler does to the tables *)

Ltac break_match :=
  match goal with
  | |- context [match ?x with _ => _ end] =>
      let E := fresh "E" in destruct x eqn:E
  end.

Lemma existsb_app_l {A} (p : A -> bool) (l l' : list A) :
  existsb p l = true -> existsb p (l ++ l') = true.
Proof. intros H. rewrite existsb_app, H. reflexivity. Qed.

Lemma insert_user_effect db t un em ph :
  let db' := fst (insert_user db t un em ph) in
  reviews db' = reviews db /\ books db' = books db
  /\ (forall id, user_exists db id = true -> user_exists db' id = true).
Proof.
  unfold insert_user. repeat break_match; simpl; repeat split; auto.
  unfold user_exists. simpl. intros. now apply existsb_app_l.
Qed.

Lemma post_signup_db hash sign env db u e p :
  fst (post_signup hash sign env db u e p) = db
  \/ exists un em ph,
       fst (post_signup hash sign env db u e p)
       = fst (insert_user db (now env) un em ph).
Proof.
  unfold post_signup.
  repeat (break_match; try (left; reflexivity));
    right; do 3 eexists;
    match goal with H : insert_user _ _ _ _ _ = _ |- _ => rewrite H end;
    reflexivity.
Qed.

Lemma post_signup_effect hash sign env db u e p :
  let db' := fst (post_signup hash sign env db u e p) in
  reviews db' = reviews db /\ books db' = books db
  /\ (forall id, user_exists db id = true -> user_exists db' id = true).
Proof.
  destruct (post_signup_db hash sign env db u e p) as [H|(un & em & ph & H)];
    cbv zeta; rewrite H; auto.
  apply insert_user_effect.
Qed.

Lemma post_login_db compare sign env db e p :
  fst (post_login compare sign env db e p) = db.
Proof. unfold post_login. repeat break_match; reflexivity. Qed.

Lemma insert_book_effect db t ti au g d y i c :
  let db' := fst (insert_book db t ti au g d y i c) in
  reviews db' = reviews db /\ users db' = users db
  /\ (forall id, book_exists db id = true -> book_exists db' id = true).
Proof.
  unfold insert_book. repeat break_match; simpl; repeat split; auto.
  unfold book_exists. simpl. intros. now apply existsb_app_l.
Qed.

Lemma post_books_db env db user t a g d y i :
  fst (post_books env db user t a g d y i) = db
  \/ exists ti au ge de ye isb c,
       fst (post_books env db user t a g d y i)
       = fst (insert_book db (now env) ti au ge de ye isb c).
Proof.
  unfold post_books.
  repeat (break_match; try (left; reflexivity));
    right; do 7 eexists;
    match goal with H : insert_book _ _ _ _ _ _ _ _ _ = _ |- _ => rewrite H end;
    reflexivity.
Qed.

Lemma post_books_effect env db user t a g d y i :
  let db' := fst (post_books env db user t a g d y i) in
  reviews db' = reviews db /\ users db' = users db
  /\ (forall id, book_exists db id = true -> book_exists db' id = true).
Proof.
  destruct (post_books_db env db user t a g d y i)
    as [H|(ti & au & ge & de & ye & isb & c & H)];
    cbv zeta; rewrite H; auto.
  apply insert_book_effect.
Qed.

(** A stored review satisfies every constraint of the table. *)
Lemma insert_review_effect db t b u rt txt :
  let db' := fst (insert_review db t b u rt txt) in
  users db' = users db /\ books db' = books db
  /\ match snd (insert_review db t b u rt txt) with
     | None => reviews db' = reviews db
     | Some row =>
         reviews db' = reviews db ++ [row]
         /\ row_ok db row
         /\ r_book_id row = b /\ r_user_id row = u
         /\ ~ In (r_id row) (map r_id (reviews db))
         /\ ~ In (review_key row) (map review_key (reviews db))
     end.
Proof.
  unfold insert_review.
  destruct (Pg.int4_of_number (reviews_id_seq db)) as [i|] eqn:Ei;
    [|simpl; auto].
  unfold Pg.int4_of_number.
  destruct (Pg.in_int4 b) eqn:Eb; [|simpl; auto].
  destruct (Pg.in_int4 u) eqn:Eu; [|simpl; auto].
  destruct rt as [rt|]; [|simpl; auto].
  match goal with |- context [if ?c then _ else _] => destruct c eqn:C end;
    [|simpl; auto].
  repeat (apply andb_true_iff in C; destruct C as [C ?]).
  simpl. repeat split; auto.
  - intros Hin. apply in_map_iff in Hin. destruct Hin as (x & Hx & Hin).
    apply negb_true_iff in H.
    assert (X : existsb
              (fun r => (r_id r =? reviews_id_seq db)
                        || (r_book_id r =? b) && (r_user_id r =? u))
              (reviews db) = true).
    { apply existsb_exists. exists x. split; auto.
      rewrite Hx, Z.eqb_refl. reflexivity. }
    congruence.
  - intros Hin. apply in_map_iff in Hin. destruct Hin as (x & Hx & Hin).
    apply negb_true_iff in H.
    assert (X : existsb
              (fun r => (r_id r =? reviews_id_seq db)
                        || (r_book_id r =? b) && (r_user_id r =? u))
              (reviews db) = true).
    { apply existsb_exists. exists x. split; auto.
      unfold review_key in Hx. simpl in Hx. inversion Hx.
      rewrite !Z.eqb_refl. apply orb_true_r. }
    congruence.
Qed.

Lemma post_review_db env db user id rating txt :
  fst (post_review env db user id rating txt) = db
  \/ exists b u rt tx,
       fst (post_review env db user id rating txt)
       = fst (insert_review db (now env) b u rt tx).
Proof.
  unfold post_review.
  repeat (break_match; try (left; reflexivity));
    right; do 4 eexists;
    match goal with H : insert_review _ _ _ _ _ _ = _ |- _ => rewrite H end;
    reflexivity.
Qed.

Lemma update_rows_spec t n rating txt l tbl ret :
  update_rows t n rating txt l = Some (tbl, ret) ->
  Forall2 (row_update t n rating txt) l tbl
  /\ ret = filter (fun r => r_id r =? n) tbl.
Proof.
  revert tbl ret. induction l as [|x l IH]; simpl; intros tbl ret H.
  - inversion H. split; constructor.
  - destruct (update_rows t n rating txt l) as [[tbl0 ret0]|]; try discriminate.
    destruct (IH _ _ eq_refl) as [F R].
    destruct (r_id x =? n) eqn:E.
    + destruct (updated_row t rating txt x) as [x'|] eqn:U; try discriminate.
      inversion H; subst; clear H.
      assert (Hid : r_id x' = r_id x).
      { unfold updated_row in U. destruct (set_rating rating x); inversion U.
        reflexivity. }
      split.
      * constructor; auto. unfold row_update. now rewrite E.
      * simpl. rewrite Hid, E. reflexivity.
    + inversion H; subst; clear H. split.
      * constructor; auto. unfold row_update. now rewrite E.
      * simpl. rewrite E. reflexivity.
Qed.

Lemma update_review_effect db t id rating txt db' rows :
  update_review db t id rating txt = Some (db', rows) ->
  users db' = users db /\ books db' = books db
  /\ Pg.in_int4 id = true
  /\ Forall2 (row_update t id rating txt) (reviews db) (reviews db')
  /\ rows = filter (fun r => r_id r =? id) (reviews db').
Proof.
  unfold update_review, Pg.int4_of_number.
  destruct (Pg.in_int4 id) eqn:E; try discriminate.
  destruct (match rating with
            | Val n => if Pg.in_int4 n then Some n else None
            | _ => Some 0
            end); try discriminate.
  destruct (update_rows t id rating txt (reviews db)) as [[tbl ret]|] eqn:U;
    try discriminate.
  intros H. inversion H; subst; clear H. simpl.
  destruct (update_rows_spec _ _ _ _ _ _ _ U). auto.
Qed.

Lemma put_review_effect env db user id rating txt :
  let db' := fst (put_review env db user id rating txt) in
  db' = db
  \/ exists n, Js.parseInt id = Some n
       /\ users db' = users db /\ books db' = books db
       /\ Forall2 (row_update (now env) n rating txt) (reviews db) (reviews db').
Proof.
  unfold put_review.
  destruct (Js.parseInt id) as [n|]; [|left; reflexivity].
  repeat (match goal with
          | |- context [if ?c then _ else _] => destruct c
          end; [left; reflexivity|]).
  destruct (update_review db (now env) n rating txt) as [[db' rows]|] eqn:U;
    [|left; reflexivity].
  destruct (update_review_effect _ _ _ _ _ _ _ U) as (Hu & Hb & _ & F & _).
  right. exists n. split; auto.
  destruct (username_of db' (au_id user)); simpl; auto.
Qed.

Lemma delete_review_effect db id :
  let db' := fst (delete_review db id) in
  db' = db
  \/ exists n, Js.parseInt id = Some n
       /\ users db' = users db /\ books db' = books db
       /\ reviews db' = filter (fun r => negb (r_id r =? n)) (reviews db).
Proof.
  unfold delete_review, delete_review_row, Pg.int4_of_number.
  destruct (Js.parseInt id) as [n|]; [|left; reflexivity].
  destruct (Pg.in_int4 n); [|left; reflexivity].
  right. exists n. simpl. auto.
Qed.

(** ** The constraints hold in every reachable state *)

Lemma row_ok_mono db db' r :
  (forall id, user_exists db id = true -> user_exists db' id = true) ->
  (forall id, book_exists db id = true -> book_exists db' id = true) ->
  row_ok db r -> row_ok db' r.
Proof. unfold row_ok. intuition. Qed.

Lemma row_ok_same db db' r :
  users db' = users db -> books db' = books db -> row_ok db r -> row_ok db' r.
Proof.
  intros Hu Hb. apply row_ok_mono; unfold user_exists, book_exists;
    rewrite ?Hu, ?Hb; auto.
Qed.

Lemma db_wf_grow db db' :
  reviews db' = reviews db ->
  (forall id, user_exists db id = true -> user_exists db' id = true) ->
  (forall id, book_exists db id = true -> book_exists db' id = true) ->
  db_wf db -> db_wf db'.
Proof.
  intros Hr Hu Hb (A & B & C). unfold db_wf. rewrite Hr.
  repeat split; auto.
  eapply Forall_impl; [|exact C]. intros r. now apply row_ok_mono.
Qed.

Lemma updated_row_fields t rating txt x x' :
  updated_row t rating txt x = Some x' ->
  r_id x' = r_id x /\ r_book_id x' = r_book_id x
  /\ r_user_id x' = r_user_id x /\ r_created_at x' = r_created_at x
  /\ r_updated_at x' = t
  /\ r_review_text x' = set_review_text txt x
  /\ match rating with
     | Undefined => r_rating x' = r_rating x
     | Null => False
     | Val n => r_rating x' = n /\ between 1 5 n = true
     end.
Proof.
  unfold updated_row, set_rating.
  destruct rating as [| |n]; try discriminate.
  - intros H; inversion H; simpl; auto 10.
  - destruct (between 1 5 n) eqn:E; try discriminate.
    intros H; inversion H; simpl; auto 10.
Qed.

Lemma row_update_keys t n rating txt l l' :
  Forall2 (row_update t n rating txt) l l' ->
  map r_id l' = map r_id l /\ map review_key l' = map review_key l.
Proof.
  induction 1 as [|x x' l l' R F [IH1 IH2]]; simpl; auto.
  rewrite IH1, IH2. unfold row_update in R.
  destruct (r_id x =? n).
  - apply updated_row_fields in R. destruct R as (A & B & C & _).
    unfold review_key. rewrite A, B, C. auto.
  - subst x'. auto.
Qed.

Lemma row_update_ok db t n rating txt l l' :
  Forall2 (row_update t n rating txt) l l' ->
  Forall (row_ok db) l -> Forall (row_ok db) l'.
Proof.
  induction 1 as [|x x' l l' R F IH]; intros H; auto.
  inversion H; subst. constructor; auto.
  unfold row_update in R. destruct (r_id x =? n); [|now subst x'].
  apply updated_row_fields in R.
  destruct R as (A & B & C & _ & _ & _ & D).
  unfold row_ok in *. rewrite B, C.
  destruct H2 as (? & ? & ? & ? & ?). repeat split; auto.
  destruct rating as [| |v]; [now rewrite D|contradiction|].
  destruct D as [D1 D2]. now rewrite D1.
Qed.

Lemma filter_keeps_distinct_keys {Row Key} (key : Row -> Key)
    (keep : Row -> bool) :
  forall rows, NoDup (map key rows) -> NoDup (map key (filter keep rows)).
Proof.
  intros rows. induction rows as [|x l IH]; simpl; intros H; auto.
  inversion H; subst. destruct (keep x); simpl; auto.
  constructor; auto. intros Hin. apply H2.
  apply in_map_iff in Hin. destruct Hin as (y & Hy & Hin).
  apply filter_In in Hin. apply in_map_iff. exists y. tauto.
Qed.

Lemma NoDup_snoc {A} (l : list A) (x : A) :
  NoDup l -> ~ In x l -> NoDup (l ++ [x]).
Proof.
  intros H Hx. apply NoDup_app; auto.
  - constructor; [intros []|constructor].
  - intros y Hy [E|[]]. subst. contradiction.
Qed.

Lemma db_wf_createTables t0 : db_wf (createTables t0).
Proof.
  assert (H : reviews (createTables t0) = []) by reflexivity.
  unfold db_wf. rewrite H. simpl. repeat split; constructor.
Qed.

Lemma db_wf_post_review env db user id rating txt :
  db_wf db -> db_wf (fst (post_review env db user id rating txt)).
Proof.
  intros W.
  destruct (post_review_db env db user id rating txt)
    as [H|(b & u & rt & tx & H)]; rewrite H; auto.
  pose proof (insert_review_effect db (now env) b u rt tx) as E.
  cbv zeta in E. destruct E as (Hu & Hb & E).
  destruct (snd (insert_review db (now env) b u rt tx)) as [row|].
  - destruct E as (Hr & Hok & _ & _ & N1 & N2).
    destruct W as (A & B & C). unfold db_wf. rewrite Hr, !map_app. simpl.
    repeat split; try (apply NoDup_snoc; auto).
    apply Forall_app. split.
    + eapply Forall_impl; [|exact C]. intros r. now apply row_ok_same.
    + constructor; [|constructor]. now apply (row_ok_same db).
  - eapply db_wf_grow; eauto; unfold user_exists, book_exists;
      rewrite ?Hu, ?Hb; auto.
Qed.

Lemma db_wf_put_review env db user id rating txt :
  db_wf db -> db_wf (fst (put_review env db user id rating txt)).
Proof.
  intros W.
  destruct (put_review_effect env db user id rating txt)
    as [H|(n & _ & Hu & Hb & F)]; [now rewrite H|].
  destruct W as (A & B & C). unfold db_wf.
  destruct (row_update_keys _ _ _ _ _ _ F) as [K1 K2]. rewrite K1, K2.
  repeat split; auto.
  eapply row_update_ok; eauto.
  eapply Forall_impl; [|exact C]. intros r. now apply row_ok_same.
Qed.

Lemma db_wf_delete_review db id :
  db_wf db -> db_wf (fst (delete_review db id)).
Proof.
  intros W.
  destruct (delete_review_effect db id) as [H|(n & _ & Hu & Hb & Hr)];
    [now rewrite H|].
  destruct W as (A & B & C). unfold db_wf. rewrite Hr.
  repeat split; try (apply filter_keeps_distinct_keys; auto).
  apply Forall_forall. intros r Hin. apply filter_In in Hin.
  destruct Hin as [Hin _]. rewrite Forall_forall in C.
  apply (row_ok_same db); auto.
Qed.

Section Reachable.

Variable bcrypt_hash : string -> string -> string.
Variable bcrypt_compare : string -> string -> bool.
Variable jwt_sign : Z -> string -> Z -> string.
Variable jwt_verify : string -> Z -> JwtResult.
Variable fts_match : string -> string -> bool.

Lemma db_wf_handle env db req :
  db_wf db ->
  db_wf (fst (handle bcrypt_hash bcrypt_compare jwt_sign jwt_verify fts_match
                env db req)).
Proof.
  intros W. destruct req; simpl.
  - pose proof (post_signup_effect bcrypt_hash jwt_sign env db
                  username email password) as (Hr & Hb & Hu).
    eapply db_wf_grow; eauto. unfold book_exists. now rewrite Hb.
  - now rewrite post_login_db.
  - unfold route_post_books.
    destruct (authenticateToken jwt_verify env db authorization); auto.
    pose proof (post_books_effect env db a title author genre description
                  published_year isbn) as (Hr & Hu & Hb).
    eapply db_wf_grow; eauto. unfold user_exists. now rewrite Hu.
  - exact W.
  - unfold route_post_review.
    destruct (authenticateToken jwt_verify env db authorization); auto.
    now apply db_wf_post_review.
  - unfold route_put_review.
    destruct (authenticateToken jwt_verify env db authorization); auto.
    destruct (checkReviewOwnership db id a); auto.
    now apply db_wf_put_review.
  - unfold route_delete_review.
    destruct (authenticateToken jwt_verify env db authorization); auto.
    destruct (checkReviewOwnership db id a); auto.
    now apply db_wf_delete_review.
  - exact W.
Qed.

Lemma reachable_db_wf db :
  reachable bcrypt_hash bcrypt_compare jwt_sign jwt_verify fts_match db ->
  db_wf db.
Proof.
  induction 1.
  - apply db_wf_createTables.
  - now apply db_wf_handle.
Qed.

End Reachable.

(** ** The stand-in states are reachable *)

Lemma reachable_run db reqs :
  Stub.reachable db -> Stub.reachable (Stub.run db reqs).
Proof.
  revert db. induction reqs as [|[t r] reqs IH]; simpl; intros db H; auto.
  apply IH. unfold Stub.handle. now constructor.
Qed.

Lemma reachable_with_users : Stub.reachable Stub.with_users.
Proof. apply reachable_run. constructor. Qed.

Lemma reachable_with_dune : Stub.reachable Stub.with_dune.
Proof. apply reachable_run, reachable_with_users. Qed.

Lemma reachable_with_review : Stub.reachable Stub.with_review.
Proof. apply reachable_run, reachable_with_dune. Qed.

Example with_review_tables :
  map u_username (users Stub.with_review) = ["alice"; "bob"]%string
  /\ map b_id (books Stub.with_review) = [1; 2; 3; 4; 5; 6]
  /\ reviews Stub.with_review
     = [mkReview 1 6 1 5 (Some "great"%string) 40 40].
Proof. vm_compute. auto. Qed.

(** The scenario of the specification, request by request. *)
Example scenario :
  let h t db r := Stub.handle (Stub.env t) db r in
  status (snd (h 31 Stub.with_dune
                 (POST_books Stub.alice (Val "dune") (Val "FRANK HERBERT")
                    Undefined Undefined Undefined Undefined)%string)) = 409
  /\ status (snd (h 41 Stub.with_review
                    (POST_review Stub.alice "6" (Val 4) (Val "x"))%string))
     = 409
  /\ snd (h 50 Stub.with_review
            (PUT_review Stub.alice "1" (Val 3) Undefined)%string)
     = mkResponse 200
         (BReview (Some (mkReview 1 6 1 3 (Some "great") 40 50)) "alice")%string
  /\ status (snd (h 60 Stub.with_review
                    (DELETE_review Stub.bob "1")%string)) = 403
  /\ snd (h 60 Stub.with_review (DELETE_review Stub.alice "1")%string)
     = mkResponse 200
         (BDeleted (Some (mkReview 1 6 1 5 (Some "great") 40 40)))%string.
Proof. vm_compute. auto 10. Qed.

(** ** Ownership *)

Lemma NoDup_map_eq {A B} (f : A -> B) (l : list A) x y :
  NoDup (map f l) -> In x l -> In y l -> f x = f y -> x = y.
Proof.
  induction l as [|a l IH]; simpl; intros N Hx Hy E; [contradiction|].
  inversion N; subst.
  destruct Hx as [Hx|Hx], Hy as [Hy|Hy]; subst; auto.
  - exfalso. apply H1. rewrite E. now apply in_map.
  - exfalso. apply H1. rewrite <- E. now apply in_map.
Qed.







(** ** Column widths *)

Lemma length_list_ascii_of_string s :
  List.length (list_ascii_of_string s) = String.length s.
Proof. induction s; simpl; auto. Qed.

Lemma varchar_fits n s :
  strlen s <= Z.of_nat n -> Pg.varchar n s = Some s.
Proof.
  unfold Pg.varchar, strlen. intros H.
  rewrite length_list_ascii_of_string.
  destruct (Nat.leb_spec (String.length s) n); auto. lia.
Qed.

(** ** Login *)

Lemma truthy_str_Val s : s <> ""%string -> truthy_str (Val s) = true.
Proof. intros H. simpl. apply String.eqb_neq in H. now rewrite H. Qed.



(** ** Signup *)

(** C4 fails on the code.  The lookup compares the stored username with the
    lower-cased new one, but the username is stored as it was typed: after
    "Alice" has signed up, a second signup as "Alice" passes the lookup, the
    INSERT violates UNIQUE (username) and the answer is 500, not 409. *)
Theorem signup_same_username_is_500 :
  let first := Stub.handle (Stub.env 10) (createTables 0)
                 (POST_signup (Val "Alice") (Val "alice@x.com")
                    (Val "secret1"))%string in
  let second := Stub.handle (Stub.env 20) (fst first)
                  (POST_signup (Val "Alice") (Val "alice2@x.com")
                     (Val "secret2"))%string in
  status (snd first) = 201
  /\ map u_username (users (fst first)) = ["Alice"%string]
  /\ snd second = json_error 500 "Internal server error during registration"
  /\ users (fst second) = users (fst first).
Proof. vm_compute. auto. Qed.

Lemma filter_none {A} (p : A -> bool) (l : list A) :
  (forall x, In x l -> p x = false) -> filter p l = [].
Proof.
  induction l as [|x l IH]; simpl; intros H; auto.
  rewrite (H x (or_introl eq_refl)). apply IH. auto.
Qed.

(** The same in general, with any bcrypt and jsonwebtoken: when the new
    username is stored as it is typed, and no stored username or email
    equals its lower-cased form or the lower-cased email, the signup is
    answered 500. *)
Lemma signup_stored_username_is_500
    (bcrypt_hash : string -> string -> string)
    (jwt_sign : Z -> string -> Z -> string) env db username email password :
  username <> ""%string -> email <> ""%string -> password <> ""%string ->
  validateEmail email = true -> 6 <= strlen password ->
  3 <= strlen username <= 50 ->
  (exists u, In u (users db) /\ u_username u = username) ->
  (forall u, In u (users db) ->
     u_email u <> Js.toLowerCase email
     /\ u_username u <> Js.toLowerCase username) ->
  snd (post_signup bcrypt_hash jwt_sign env db
         (Val username) (Val email) (Val password))
  = json_error 500 "Internal server error during registration".
Proof.
  intros Hu He Hp Ve Vp Vu (u & Hin & Hname) Hfree.
  unfold post_signup, validatePassword.
  rewrite !truthy_str_Val by assumption. rewrite Ve.
  simpl negb. simpl orb. cbv iota.
  assert (P : (6 <=? strlen password) = true) by zbool.
  assert (U : (strlen username <? 3) || (50 <? strlen username) = false)
    by zbool.
  rewrite P, U. simpl.
  rewrite filter_none.
  2:{ intros x Hx. destruct (Hfree x Hx) as [A B].
      apply String.eqb_neq in A, B. now rewrite A, B. }
  unfold insert_user.
  rewrite (varchar_fits 50 username) by lia.
  destruct (Pg.int4_of_number (users_id_seq db)); [|reflexivity].
  destruct (Pg.varchar 100 (Js.toLowerCase email)); [|reflexivity].
  destruct (Pg.varchar 255 (bcrypt_hash password (salt env))); [|reflexivity].
  match goal with |- context [existsb ?p ?l] =>
    assert (X : existsb p l = true) end.
  { apply existsb_exists. exists u. split; auto.
    rewrite Hname, String.eqb_refl. rewrite orb_true_r. reflexivity. }
  rewrite X. reflexivity.
Qed.

(** ** One review per book and user *)






(** ** Adding a book *)

Lemma duplicate_book_filter db title author :
  match filter (duplicate_book title author) (books db) with
  | [] => ~ is_duplicate db title author
  | _ :: _ => is_duplicate db title author
  end.
Proof.
  destruct (filter (duplicate_book title author) (books db)) as [|b t] eqn:F.
  - intros (b & Hin & Ht & Ha).
    assert (In b (filter (duplicate_book title author) (books db))).
    { apply filter_In. split; auto. unfold duplicate_book.
      rewrite Ht, Ha, !String.eqb_refl. reflexivity. }
    rewrite F in H. contradiction.
  - assert (H : In b (filter (duplicate_book title author) (books db)))
      by (rewrite F; left; reflexivity).
    apply filter_In in H. destruct H as [Hin H].
    unfold duplicate_book in H. apply andb_true_iff in H.
    destruct H as [Ht Ha]. apply String.eqb_eq in Ht, Ha.
    exists b. auto.
Qed.

Lemma insert_book_stored db t title author g d y i uid db' b :
  strlen title <= 255 -> strlen author <= 255 ->
  insert_book db t (Some title) (Some author) g d y i (Some uid)
  = (db', Some b) ->
  books db' = books db ++ [b]
  /\ b_title b = title /\ b_author b = author
  /\ b_created_by b = Some uid /\ b_created_at b = t.
Proof.
  intros Lt La. unfold insert_book.
  rewrite (varchar_fits 255 title), (varchar_fits 255 author) by assumption.
  destruct (Pg.int4_of_number (books_id_seq db)); [|discriminate].
  destruct (Pg.varchar_opt 100 g); [|discriminate].
  destruct (int4_opt y); [|discriminate].
  destruct (Pg.varchar_opt 20 i); [|discriminate].
  unfold int4_opt, Pg.int4_of_number.
  destruct (Pg.in_int4 uid); [|discriminate]. simpl.
  destruct (negb (book_exists db (books_id_seq db)) && user_exists db uid);
    [|discriminate].
  intros H. inversion H; subst; clear H. simpl. auto.
Qed.

(** C6 (amended).  For every addBook request by an authenticated user with
    a valid title and author and, when one is given, a publication year
    within [0, current year]: the answer is Conflict (409), with nothing
    stored, exactly when some book matches title and author without regard
    to case; otherwise, when the database accepts the row, the book is
    stored with the acting user as its creator and returned with status
    201. *)
Theorem add_book_conflict
    (jwt_verify : string -> Z -> JwtResult)
    env db authorization user title author genre description
    published_year isbn :
  authenticateToken jwt_verify env db authorization = Next user ->
  title <> ""%string -> author <> ""%string ->
  strlen title <= 255 -> strlen author <= 255 ->
  (forall y, published_year = Val y -> 0 <= y <= year env) ->
  let res := route_post_books jwt_verify env db authorization
               (Val title) (Val author) genre description published_year
               isbn in
  (status (snd res) = 409 <-> is_duplicate db title author)
  /\ (is_duplicate db title author -> res = (db, book_conflict))
  /\ (~ is_duplicate db title author ->
      forall db' b,
        insert_book db (now env) (Some title) (Some author) (to_sql genre)
          (to_sql description) (to_sql published_year) (to_sql isbn)
          (Some (au_id user)) = (db', Some b) ->
        res = (db', mkResponse 201 (BBook b))
        /\ books db' = books db ++ [b]
        /\ b_title b = title /\ b_author b = author
        /\ b_created_by b = Some (au_id user)).
Proof.
  intros Au Ht Ha Lt La Hy. cbv zeta.
  unfold route_post_books. rewrite Au. unfold post_books.
  rewrite !truthy_str_Val by assumption. simpl negb. simpl orb. cbv iota.
  assert (L1 : (255 <? strlen title) = false) by zbool.
  assert (L2 : (255 <? strlen author) = false) by zbool.
  rewrite L1, L2. simpl orb. cbv iota.
  assert (Y : truthy_num published_year
              && (num_lt published_year 0
                  || num_gt published_year (year env)) = false).
  { destruct published_year as [| |y]; auto.
    specialize (Hy y eq_refl). simpl. zbool. }
  rewrite Y.
  pose proof (duplicate_book_filter db title author) as D.
  destruct (filter (duplicate_book title author) (books db)) as [|b0 t0].
  - split; [|split].
    + split; [|intros; contradiction].
      destruct (insert_book db (now env) (Some title) (Some author)
                  (to_sql genre) (to_sql description)
                  (to_sql published_year) (to_sql isbn) (Some (au_id user)))
        as [db' [b|]]; simpl; discriminate.
    + intros; contradiction.
    + intros _ db' b I. rewrite I. split; auto.
      destruct (insert_book_stored _ _ _ _ _ _ _ _ _ _ _ Lt La I)
        as (A & B & C & E & _). auto.
  - split; [|split].
    + simpl. tauto.
    + reflexivity.
    + intros; contradiction.
Qed.

Lemma add_book_conflict_witness :
  let post t db title author :=
    Stub.handle (Stub.env t) db
      (POST_books Stub.alice (Val title) (Val author) Undefined Undefined
         (Val 1965) Undefined) in
  (snd (post 30 Stub.with_users "Dune" "Herbert")
   = mkResponse 201
       (BBook (mkBook 6 "Dune" "Herbert" None None (Some 1965) None (Some 1)
                 30 30))
   /\ post 31 (fst (post 30 Stub.with_users "Dune" "Herbert"))
        "dune" "HERBERT"
      = (fst (post 30 Stub.with_users "Dune" "Herbert"), book_conflict))%string.
Proof.
  assert (N : forall a : string, String.eqb a "" = false -> a <> ""%string)
    by (intros a; apply String.eqb_neq).
  cbv zeta. unfold Stub.handle, handle.
  set (db1 := fst (route_post_books Stub.jwt_verify (Stub.env 30)
                     Stub.with_users Stub.alice (Val "Dune"%string)
                     (Val "Herbert"%string) Undefined Undefined (Val 1965)
                     Undefined)).
  assert (Hy : forall y, Val 1965 = Val y -> 0 <= y <= year (Stub.env 30)).
  { intros y E. injection E as <-. vm_compute. split; discriminate. }
  split.
  - destruct (add_book_conflict Stub.jwt_verify (Stub.env 30) Stub.with_users
                Stub.alice (mkAuthUser 1 "alice" "alice@x.com")
                "Dune" "Herbert" Undefined Undefined (Val 1965) Undefined
                ltac:(vm_compute; reflexivity)
                (N "Dune"%string eq_refl) (N "Herbert"%string eq_refl)
                ltac:(vm_compute; discriminate)
                ltac:(vm_compute; discriminate) Hy) as (_ & _ & H).
    assert (ND : ~ is_duplicate Stub.with_users "Dune" "Herbert").
    { intros (b & Hin & Ht & _). vm_compute in Hin.
      repeat (destruct Hin as [<-|Hin]; [vm_compute in Ht; discriminate|]).
      contradiction. }
    destruct (H ND db1
                (mkBook 6 "Dune" "Herbert" None None (Some 1965) None (Some 1)
                   30 30) ltac:(vm_compute; reflexivity)) as (E & _).
    rewrite E. reflexivity.
  - destruct (add_book_conflict Stub.jwt_verify (Stub.env 31) db1
                Stub.alice (mkAuthUser 1 "alice" "alice@x.com")
                "dune" "HERBERT" Undefined Undefined (Val 1965) Undefined
                ltac:(vm_compute; reflexivity)
                (N "dune"%string eq_refl) (N "HERBERT"%string eq_refl)
                ltac:(vm_compute; discriminate)
                ltac:(vm_compute; discriminate) Hy) as (_ & H & _).
    apply H.
    exists (mkBook 6 "Dune" "Herbert" None None (Some 1965) None (Some 1)
              30 30).
    vm_compute. auto 10.
Defined.

(** C6, as stated, fails: title and author are valid and no such book is
    stored, yet the book is not stored and the answer is not 201, because
    the publication year lies in the future. *)
Lemma add_book_counterexample :
  let res := Stub.handle (Stub.env 30) Stub.with_users
               (POST_books Stub.alice (Val "Dune") (Val "Frank Herbert")
                  Undefined Undefined (Val 3000) Undefined)%string in
  ~ is_duplicate Stub.with_users "Dune" "Frank Herbert"
  /\ res = (Stub.with_users, json_error 400 "Please provide a valid publication year")
  /\ status (snd res) <> 201.
Proof.
  cbv zeta. split; [|split].
  - intros (b & Hin & Ht & _). vm_compute in Hin.
    repeat (destruct Hin as [<-|Hin]; [vm_compute in Ht; discriminate|]).
    contradiction.
  - vm_compute. reflexivity.
  - vm_compute. discriminate.
Qed.

(** ** Updating a review *)


Lemma int4in_in_int4 s n : Pg.int4in s = Some n -> Pg.in_int4 n = true.
Proof.
  unfold Pg.int4in.
  destruct (strip_sign (Pg.skip_spaces (list_ascii_of_string s))) as [neg s2].
  destruct s2 as [|c t]; [discriminate|].
  destruct (is_digit c); [|discriminate].
  destruct (Pg.take_digits 0 (c :: t)) as [v rest].
  destruct (Pg.skip_spaces rest); [|discriminate].
  cbv zeta.
  destruct (Pg.in_int4 (if neg then - v else v)) eqn:E; [|discriminate].
  intros H. inversion H. subst. exact E.
Qed.







(** ** ORDER BY, LIMIT and OFFSET *)

Section Ordering.

Context {A : Type}.
Variable first : A -> A -> bool.
Hypothesis first_total : forall x y, first x y = false -> first y x = true.
Hypothesis first_trans :
  forall x y z, first x y = true -> first y z = true -> first x z = true.

Let before (x y : A) : Prop := first x y = true.

Lemma insert_by_perm x l : Permutation (Pg.insert_by first x l) (x :: l).
Proof.
  induction l as [|y l IH]; simpl; auto.
  destruct (first x y); auto.
  rewrite IH. apply perm_swap.
Qed.

Lemma order_by_perm l : Permutation (Pg.order_by first l) l.
Proof.
  induction l as [|x l IH]; simpl; auto.
  rewrite insert_by_perm. now constructor.
Qed.

Lemma insert_by_sorted x l :
  StronglySorted before l -> StronglySorted before (Pg.insert_by first x l).
Proof.
  induction 1 as [|y l S IH F]; simpl.
  - constructor; constructor.
  - destruct (first x y) eqn:E.
    + constructor; [constructor; auto|].
      constructor; [exact E|].
      eapply Forall_impl; [|exact F]. intros z Hz.
      unfold before in *. eauto.
    + constructor; auto.
      eapply Permutation_Forall; [symmetry; apply insert_by_perm|].
      constructor; auto. unfold before. auto.
Qed.

Lemma order_by_sorted l : StronglySorted before (Pg.order_by first l).
Proof.
  induction l; simpl; [constructor|now apply insert_by_sorted].
Qed.

End Ordering.

Lemma StronglySorted_impl {A} (R R' : A -> A -> Prop) l :
  (forall x y, R x y -> R' x y) -> StronglySorted R l -> StronglySorted R' l.
Proof.
  intros H. induction 1; constructor; auto.
  eapply Forall_impl; [|eassumption]. auto.
Qed.

Lemma In_firstn {A} n (l : list A) x : In x (firstn n l) -> In x l.
Proof.
  intros H. rewrite <- (firstn_skipn n l). apply in_or_app. now left.
Qed.

Lemma In_skipn {A} n (l : list A) x : In x (skipn n l) -> In x l.
Proof.
  intros H. rewrite <- (firstn_skipn n l). apply in_or_app. now right.
Qed.

Lemma StronglySorted_skipn {A} (R : A -> A -> Prop) n l :
  StronglySorted R l -> StronglySorted R (skipn n l).
Proof.
  revert l. induction n as [|n IH]; intros l S; simpl; auto.
  destruct l; auto. inversion S; auto.
Qed.

Lemma StronglySorted_firstn {A} (R : A -> A -> Prop) n l :
  StronglySorted R l -> StronglySorted R (firstn n l).
Proof.
  revert l. induction n as [|n IH]; intros l S; simpl; [constructor|].
  destruct l as [|x l]; [constructor|]. inversion S; subst.
  constructor; auto.
  apply Forall_forall. intros y Hy. rewrite Forall_forall in H2.
  apply H2. eapply In_firstn; eauto.
Qed.

Lemma limit_offset_some {A} l o (rows : list A) :
  0 <= l <= 9223372036854775807 -> 0 <= o <= 9223372036854775807 ->
  Pg.limit_offset l o rows
  = Some (firstn (Z.to_nat l) (skipn (Z.to_nat o) rows)).
Proof. intros Hl Ho. unfold Pg.limit_offset. zbool. Qed.

Lemma limit_offset_window {A} l o (rows win : list A) :
  Pg.limit_offset l o rows = Some win ->
  win = firstn (Z.to_nat l) (skipn (Z.to_nat o) rows).
Proof.
  unfold Pg.limit_offset.
  destruct (Pg.in_int8 l && Pg.in_int8 o && (0 <=? l) && (0 <=? o));
    congruence.
Qed.

Lemma In_window {A} n m (l : list A) x :
  In x (firstn n (skipn m l)) -> In x l.
Proof.
  intros H. apply In_firstn in H. eapply In_skipn; eauto.
Qed.

(** ** Book detail *)







(** ** LIKE and substrings *)

Lemma like_percent p t :
  Pg.like ("%"%char :: p) t
  = Pg.like p t
    || match t with [] => false | _ :: t' => Pg.like ("%"%char :: p) t' end.
Proof. destruct t; reflexivity. Qed.

Lemma like_percent_iff p t :
  Pg.like ("%"%char :: p) t = true
  <-> exists a t', t = a ++ t' /\ Pg.like p t' = true.
Proof.
  induction t as [|x t IH]; rewrite like_percent.
  - rewrite orb_false_r. split.
    + intros H. exists [], []. auto.
    + intros (a & t' & E & H). symmetry in E. apply app_eq_nil in E.
      destruct E; subst. exact H.
  - rewrite orb_true_iff, IH. split.
    + intros [H|(a & t' & E & H)].
      * exists [], (x :: t). auto.
      * exists (x :: a), t'. subst. auto.
    + intros (a & t' & E & H). destruct a as [|y a]; simpl in E.
      * subst t'. auto.
      * inversion E; subst. right. eauto.
Qed.

Lemma like_char c p t :
  is_wildcard c = false ->
  Pg.like (c :: p) t
  = match t with [] => false | x :: t' => (x =? c)%char && Pg.like p t' end.
Proof.
  unfold is_wildcard. intros H.
  apply orb_false_iff in H. destruct H as [H H3].
  apply orb_false_iff in H. destruct H as [H1 H2].
  simpl. rewrite H1, H2, H3. reflexivity.
Qed.

Lemma like_literal q p t :
  forallb (fun c => negb (is_wildcard c)) q = true ->
  Pg.like (q ++ p) t = true <-> exists t', t = q ++ t' /\ Pg.like p t' = true.
Proof.
  revert t. induction q as [|c q IH]; intros t L.
  - simpl. split; eauto. intros (t' & -> & H). exact H.
  - simpl in L. apply andb_true_iff in L. destruct L as [Lc L].
    apply negb_true_iff in Lc.
    change ((c :: q) ++ p) with (c :: (q ++ p)). rewrite like_char by exact Lc.
    destruct t as [|x t].
    + split; [discriminate|]. intros (t' & E & _). discriminate E.
    + rewrite andb_true_iff, (IH t L). split.
      * intros (E & t' & -> & H). apply Ascii.eqb_eq in E. subst.
        exists t'. split; [reflexivity|exact H].
      * intros (t' & E & H). inversion E; subst.
        split; [apply Ascii.eqb_refl|eauto].
Qed.

Lemma like_contains q t :
  forallb (fun c => negb (is_wildcard c)) q = true ->
  Pg.like ("%"%char :: q ++ ["%"%char]) t = true
  <-> exists a b, t = a ++ q ++ b.
Proof.
  intros L. rewrite like_percent_iff. split.
  - intros (a & t' & -> & H). apply (like_literal q _ _ L) in H.
    destruct H as (b & -> & _). eauto.
  - intros (a & b & ->). exists a, (q ++ b). split; auto.
    apply (like_literal q _ _ L). exists b. split; auto.
    apply like_percent_iff. exists b, []. split; [now rewrite app_nil_r|].
    reflexivity.
Qed.

Lemma list_ascii_of_string_app a b :
  list_ascii_of_string (a ++ b)
  = list_ascii_of_string a ++ list_ascii_of_string b.
Proof. induction a; simpl; congruence. Qed.

Lemma string_of_list_ascii_app a b :
  string_of_list_ascii (a ++ b)
  = (string_of_list_ascii a ++ string_of_list_ascii b)%string.
Proof. induction a; simpl; congruence. Qed.

Lemma substring_chars q t :
  substring q t
  <-> exists a b : chars,
        list_ascii_of_string t = a ++ list_ascii_of_string q ++ b.
Proof.
  split.
  - intros (a & b & ->). rewrite !list_ascii_of_string_app. eauto.
  - intros (a & b & E).
    exists (string_of_list_ascii a), (string_of_list_ascii b).
    rewrite <- (string_of_list_ascii_of_string q),
      <- !string_of_list_ascii_app, <- E.
    symmetry. apply string_of_list_ascii_of_string.
Qed.

Lemma LIKE_substring q t :
  literal q = true ->
  Pg.LIKE t (like_pattern q) = true <-> substring q t.
Proof.
  intros L. unfold Pg.LIKE, like_pattern.
  rewrite !list_ascii_of_string_app. simpl.
  rewrite substring_chars. now apply like_contains.
Qed.

Lemma prefix_spec q t : prefix q t = true <-> exists b, t = q ++ b.
Proof.
  revert t. induction q as [|c q IH]; intros t; simpl.
  - split; eauto.
  - destruct t as [|x t].
    + split; [discriminate|]. intros (b & E). discriminate E.
    + rewrite andb_true_iff, IH. split.
      * intros (E & b & ->). apply Ascii.eqb_eq in E. subst.
        exists b. reflexivity.
      * intros (b & E). inversion E; subst.
        split; [apply Ascii.eqb_refl|eauto].
Qed.

Lemma infix_spec q t : infix q t = true <-> exists a b, t = a ++ q ++ b.
Proof.
  induction t as [|x t IH]; simpl; rewrite orb_true_iff, prefix_spec.
  - split.
    + intros [(b & E)|H]; [|discriminate]. exists [], b. exact E.
    + intros (a & b & E). left. destruct a; [eauto|discriminate E].
  - rewrite IH. split.
    + intros [(b & E)|(a & b & ->)].
      * exists [], b. exact E.
      * exists (x :: a), b. reflexivity.
    + intros (a & b & E). destruct a as [|y a]; simpl in E.
      * left. eauto.
      * inversion E; subst. right. eauto.
Qed.

Lemma substring_infix q t :
  substring q t
  <-> infix (list_ascii_of_string q) (list_ascii_of_string t) = true.
Proof. rewrite substring_chars, infix_spec. reflexivity. Qed.

(** Case folding leaves the wildcards alone and makes none. *)
Lemma is_wildcard_lower c : is_wildcard (Js.lower_char c) = is_wildcard c.
Proof. destruct c as [[] [] [] [] [] [] [] []]; reflexivity. Qed.

Lemma literal_lower q : literal (Pg.lower q) = literal q.
Proof.
  unfold literal, Pg.lower. induction q as [|c q IH]; simpl; auto.
  rewrite is_wildcard_lower, IH. reflexivity.
Qed.

Lemma toLowerCase_app a b :
  Js.toLowerCase (a ++ b) = (Js.toLowerCase a ++ Js.toLowerCase b)%string.
Proof. induction a; simpl; congruence. Qed.

Lemma lower_like_pattern q : Pg.lower (like_pattern q) = like_pattern (Pg.lower q).
Proof.
  unfold like_pattern, Pg.lower. rewrite !toLowerCase_app. reflexivity.
Qed.

(** ** Search ranking *)

Lemma search_first_total x y :
  search_first x y = false -> search_first y x = true.
Proof. unfold search_first. zbool. Qed.

Lemma search_first_trans x y z :
  search_first x y = true -> search_first y z = true ->
  search_first x z = true.
Proof. unfold search_first. zbool. Qed.

Lemma search_first_ranked x y : search_first x y = true -> ranked_before x y.
Proof. unfold search_first, ranked_before. zbool. Qed.

(** C8 (amended).  In every search result set, each returned book's
    relevance score is 4 if its title or author equals the query without
    regard to case, else 3 if its lower-cased title or author matches the
    LIKE pattern made of the lower-cased query between two percent signs,
    else 1, and then the full-text match holds; for a query without the
    characters percent, underscore and backslash that LIKE match is
    case-insensitive substring containment.  The results are ordered by
    descending score, newest created_at first among equal scores. *)
Theorem search_ranking
    (fts_match : string -> string -> bool) db term limit offset rows :
  search_rows fts_match db term limit offset = Some rows ->
  let same x := Pg.lower x = Pg.lower term in
  let like x := Pg.LIKE (Pg.lower x) (Pg.lower (like_pattern term)) = true in
  StronglySorted ranked_before rows
  /\ (forall row, In row rows ->
      let b := br_book (fst row) in
      In b (books db) /\ fst row = book_row db b
      /\ (same (b_title b) \/ same (b_author b) -> snd row = 4)
      /\ (~ same (b_title b) -> ~ same (b_author b) ->
          like (b_title b) \/ like (b_author b) -> snd row = 3)
      /\ (~ same (b_title b) -> ~ same (b_author b) ->
          ~ like (b_title b) -> ~ like (b_author b) ->
          snd row = 1
          /\ fts_match (b_title b ++ " " ++ b_author b)%string term = true))
  /\ (literal term = true ->
      forall x, like x <-> substring (Pg.lower term) (Pg.lower x)).
Proof.
  intros S. cbv zeta. unfold search_rows in S.
  apply limit_offset_window in S. subst rows.
  split; [|split].
  - apply StronglySorted_firstn, StronglySorted_skipn.
    eapply StronglySorted_impl; [exact search_first_ranked|].
    apply (order_by_sorted search_first search_first_total search_first_trans).
  - intros row Hin. apply In_window in Hin.
    eapply Permutation_in in Hin; [|apply order_by_perm].
    apply in_map_iff in Hin. destruct Hin as (b & <- & Hb).
    apply filter_In in Hb. destruct Hb as [Hb W].
    cbn [fst snd br_book book_row].
    split; [exact Hb|split; [reflexivity|]].
    unfold relevance_score, search_where in *.
    destruct (String.eqb_spec (Pg.lower (b_title b)) (Pg.lower term)) as [T|T];
      [repeat split; auto; intros; tauto|].
    destruct (String.eqb_spec (Pg.lower (b_author b)) (Pg.lower term)) as [A|A];
      [repeat split; auto; intros; tauto|].
    destruct (Pg.LIKE (Pg.lower (b_title b)) (Pg.lower (like_pattern term)));
      [repeat split; auto; intros; try tauto; exfalso; auto|].
    destruct (Pg.LIKE (Pg.lower (b_author b)) (Pg.lower (like_pattern term)));
      [repeat split; auto; intros; try tauto; exfalso; auto|].
    simpl in W. repeat split; auto; intros; try tauto.
    destruct H1 as [H1|H1]; discriminate H1.
  - intros L x. rewrite lower_like_pattern. apply LIKE_substring.
    now rewrite literal_lower.
Qed.

Lemma search_ranking_witness :
  option_map (map (fun row => (b_title (br_book (fst row)), snd row)))
    (search_rows Stub.fts_match Stub.with_dune "an" 10 0)
  = Some [("Dune", 3); ("Pride and Prejudice", 3)]%string
  /\ (Pg.LIKE (Pg.lower "Frank Herbert") (Pg.lower (like_pattern "an")) = true
      <-> substring (Pg.lower "an") (Pg.lower "Frank Herbert")).
Proof.
  destruct (search_rows Stub.fts_match Stub.with_dune "an" 10 0)
    as [rows|] eqn:E; [|vm_compute in E; discriminate E].
  destruct (search_ranking Stub.fts_match Stub.with_dune "an" 10 0 rows E)
    as (_ & _ & H).
  split; [|exact (H eq_refl "Frank Herbert"%string)].
  vm_compute in E. injection E as <-. vm_compute. reflexivity.
Defined.

(** C8, as stated, fails: for the query "d_n" the book "Dune" by Frank
    Herbert is returned with score 3, although neither its title nor its
    author equals the query or contains it as a substring; the underscore
    is a wildcard of LIKE. *)
Lemma search_ranking_counterexample :
  (option_map (map (fun row => (b_title (br_book (fst row)), snd row)))
     (search_rows Stub.fts_match Stub.with_dune "d_n" 10 0)
   = Some [("Dune", 3)]
   /\ Pg.lower "Dune" <> Pg.lower "d_n"
   /\ Pg.lower "Frank Herbert" <> Pg.lower "d_n"
   /\ ~ substring (Pg.lower "d_n") (Pg.lower "Dune")
   /\ ~ substring (Pg.lower "d_n") (Pg.lower "Frank Herbert"))%string.
Proof.
  split; [vm_compute; reflexivity|].
  split; [vm_compute; discriminate|].
  split; [vm_compute; discriminate|].
  split; rewrite substring_infix; vm_compute; discriminate.
Qed.

Example search_examples :
  (status (get_search Stub.fts_match Stub.with_dune (Some "g") None None) = 400
   /\ status (get_search Stub.fts_match Stub.with_dune (Some "  ") None None)
      = 400
   /\ status (get_search Stub.fts_match Stub.with_dune None None None) = 400
   /\ (forall books p,
         get_search Stub.fts_match Stub.with_dune (Some " gatsby ") None None
         = mkResponse 200 (BSearch "gatsby" books p) ->
         map (fun r => b_title (br_book r)) books = ["The Great Gatsby"]
         /\ total_items p = 1)
   /\ status (get_search Stub.fts_match Stub.with_dune (Some "dune") None
                (Some "-1")) = 500)%string.
Proof.
  repeat split; try (vm_compute; reflexivity);
    vm_compute in H; injection H as <- <-; reflexivity.
Qed.

(** * Further properties of the handlers *)

(** ** Authentication *)

Lemma split_chars_no_sep sep cur s :
  forallb (fun c => negb (c =? sep)%char) s = true ->
  split_chars sep cur s = [string_of_list_ascii (rev cur ++ s)].
Proof.
  revert cur. induction s as [|c s IH]; intros cur H; simpl.
  - now rewrite app_nil_r.
  - simpl in H. apply andb_true_iff in H. destruct H as [Hc H].
    apply negb_true_iff in Hc. rewrite Hc, IH by exact H.
    simpl. now rewrite <- app_assoc.
Qed.

Lemma split_space_bearer token :
  no_space token = true ->
  split_space ("Bearer " ++ token) = ["Bearer"%string; token].
Proof.
  intros H. unfold split_space. rewrite list_ascii_of_string_app.
  simpl. rewrite split_chars_no_sep by exact H.
  simpl. now rewrite string_of_list_ascii_of_string.
Qed.



(** ** Client errors write nothing *)

Ltac no_write :=
  repeat match goal with
    | |- context [match ?x with _ => _ end] => destruct x
    end;
  simpl; intros; try reflexivity; try lia.

(** X2.  A request that is answered with a status from 400 to 499 leaves
    the database, tables and sequences, as it was. *)
Theorem client_errors_write_nothing
    (bcrypt_hash : string -> string -> string)
    (bcrypt_compare : string -> string -> bool)
    (jwt_sign : Z -> string -> Z -> string)
    (jwt_verify : string -> Z -> JwtResult)
    (fts_match : string -> string -> bool) env db req :
  let res := handle bcrypt_hash bcrypt_compare jwt_sign jwt_verify fts_match
               env db req in
  400 <= status (snd res) < 500 -> fst res = db.
Proof.
  cbv zeta. destruct req; simpl.
  - unfold post_signup. no_write.
  - intros _. apply post_login_db.
  - unfold route_post_books.
    destruct (authenticateToken jwt_verify env db authorization);
      [reflexivity|].
    unfold post_books. no_write.
  - reflexivity.
  - unfold route_post_review.
    destruct (authenticateToken jwt_verify env db authorization);
      [reflexivity|].
    unfold post_review. no_write.
  - unfold route_put_review.
    destruct (authenticateToken jwt_verify env db authorization);
      [reflexivity|].
    destruct (checkReviewOwnership db id a); [reflexivity|].
    unfold put_review. no_write.
  - unfold route_delete_review.
    destruct (authenticateToken jwt_verify env db authorization);
      [reflexivity|].
    destruct (checkReviewOwnership db id a); [reflexivity|].
    unfold delete_review. no_write.
  - reflexivity.
Qed.

Lemma client_errors_write_nothing_witness :
  let res := Stub.handle (Stub.env 50) Stub.with_review
               (POST_review Stub.bob "99" (Val 4) Undefined) in
  status (snd res) = 404 /\ fst res = Stub.with_review.
Proof.
  cbv zeta.
  assert (S : status (snd (Stub.handle (Stub.env 50) Stub.with_review
                             (POST_review Stub.bob "99" (Val 4) Undefined)))
              = 404) by (vm_compute; reflexivity).
  split; [exact S|].
  apply (client_errors_write_nothing Stub.bcrypt_hash Stub.bcrypt_compare
           Stub.jwt_sign Stub.jwt_verify Stub.fts_match).
  unfold Stub.handle in S. rewrite S. lia.
Defined.

(** ** What the inserts store *)

Lemma insert_user_cases db t un em ph :
  let db' := fst (insert_user db t un em ph) in
  books db' = books db /\ reviews db' = reviews db
  /\ books_id_seq db' = books_id_seq db
  /\ reviews_id_seq db' = reviews_id_seq db
  /\ users_id_seq db' = users_id_seq db + 1
  /\ match snd (insert_user db t un em ph) with
     | None => users db' = users db
     | Some row =>
         users db' = users db ++ [row]
         /\ u_id row = users_id_seq db
         /\ Pg.in_int4 (u_id row) = true
         /\ Pg.varchar 50 un = Some (u_username row)
         /\ Pg.varchar 100 em = Some (u_email row)
         /\ Pg.varchar 255 ph = Some (u_password_hash row)
         /\ u_created_at row = t
         /\ ~ In (u_id row) (map u_id (users db))
         /\ ~ In (u_username row) (map u_username (users db))
         /\ ~ In (u_email row) (map u_email (users db))
     end.
Proof.
  unfold insert_user, Pg.int4_of_number.
  destruct (Pg.in_int4 (users_id_seq db)) eqn:I; [|simpl; auto 10].
  destruct (Pg.varchar 50 un) as [un'|]; [|simpl; auto 10].
  destruct (Pg.varchar 100 em) as [em'|]; [|simpl; auto 10].
  destruct (Pg.varchar 255 ph) as [ph'|]; [|simpl; auto 10].
  match goal with |- context [existsb ?p ?l] => destruct (existsb p l) eqn:E end;
    [simpl; auto 10|].
  simpl. repeat split; auto;
    intros Hin; apply in_map_iff in Hin; destruct Hin as (x & Hx & Hin);
    (assert (X : existsb
               (fun u => (u_id u =? users_id_seq db)
                         || String.eqb (u_username u) un'
                         || String.eqb (u_email u) em') (users db) = true);
     [apply existsb_exists; exists x; split; auto; rewrite Hx;
      rewrite ?Z.eqb_refl, ?String.eqb_refl, ?orb_true_r; reflexivity
     |congruence]).
Qed.

Lemma insert_book_cases db t ti au g d y i c :
  let db' := fst (insert_book db t ti au g d y i c) in
  users db' = users db /\ reviews db' = reviews db
  /\ users_id_seq db' = users_id_seq db
  /\ reviews_id_seq db' = reviews_id_seq db
  /\ books_id_seq db' = books_id_seq db + 1
  /\ match snd (insert_book db t ti au g d y i c) with
     | None => books db' = books db
     | Some row => books db' = books db ++ [row] /\ b_id row = books_id_seq db
     end.
Proof.
  unfold insert_book.
  repeat break_match; simpl in *; repeat split; auto; try discriminate;
    match goal with H : Some _ = Some _ |- _ => inversion H; subst end;
    reflexivity.
Qed.

Lemma insert_review_cases db t b u rt txt :
  let db' := fst (insert_review db t b u rt txt) in
  users_id_seq db' = users_id_seq db
  /\ books_id_seq db' = books_id_seq db
  /\ reviews_id_seq db' = reviews_id_seq db + 1
  /\ match snd (insert_review db t b u rt txt) with
     | None => True
     | Some row => r_id row = reviews_id_seq db
     end.
Proof.
  unfold insert_review.
  repeat break_match; simpl in *; repeat split; auto; try discriminate;
    match goal with H : Some _ = Some _ |- _ => inversion H; subst end;
    reflexivity.
Qed.

Lemma post_signup_insert hash sign env db u e p :
  fst (post_signup hash sign env db u e p) = db
  \/ exists un em ph,
       fst (post_signup hash sign env db u e p)
       = fst (insert_user db (now env) un (Js.toLowerCase em) ph).
Proof.
  unfold post_signup.
  repeat (break_match; try (left; reflexivity));
    right; do 3 eexists;
    match goal with H : insert_user _ _ _ _ _ = _ |- _ => rewrite H end;
    reflexivity.
Qed.

Lemma update_review_seqs db t id rating txt db' rows :
  update_review db t id rating txt = Some (db', rows) ->
  users_id_seq db' = users_id_seq db /\ books_id_seq db' = books_id_seq db
  /\ reviews_id_seq db' = reviews_id_seq db.
Proof.
  unfold update_review.
  destruct (Pg.int4_of_number id); [|discriminate].
  destruct (match rating with
            | Val n => Pg.int4_of_number n
            | _ => Some 0
            end); [|discriminate].
  destruct (update_rows t z rating txt (reviews db)) as [[tbl ret]|];
    [|discriminate].
  intros H. inversion H; subst. simpl. auto.
Qed.

Lemma put_review_seqs env db user id rating txt :
  let db' := fst (put_review env db user id rating txt) in
  users_id_seq db' = users_id_seq db /\ books_id_seq db' = books_id_seq db
  /\ reviews_id_seq db' = reviews_id_seq db.
Proof.
  unfold put_review.
  destruct (Js.parseInt id) as [n|]; [|simpl; auto].
  repeat (match goal with
          | |- context [if ?c then _ else _] => destruct c
          end; [simpl; auto|]).
  destruct (update_review db (now env) n rating txt) as [[db' rows]|] eqn:U;
    [|simpl; auto].
  apply update_review_seqs in U.
  destruct (username_of db' (au_id user)); simpl; exact U.
Qed.

Lemma delete_review_seqs db id :
  let db' := fst (delete_review db id) in
  users_id_seq db' = users_id_seq db /\ books_id_seq db' = books_id_seq db
  /\ reviews_id_seq db' = reviews_id_seq db.
Proof.
  unfold delete_review, delete_review_row.
  destruct (Js.parseInt id) as [n|]; [|simpl; auto].
  destruct (Pg.int4_of_number n); simpl; auto.
Qed.

(** ** Case folding *)

Lemma lower_char_idem c : Js.lower_char (Js.lower_char c) = Js.lower_char c.
Proof. destruct c as [[] [] [] [] [] [] [] []]; reflexivity. Qed.

Lemma toLowerCase_idem s : Js.toLowerCase (Js.toLowerCase s) = Js.toLowerCase s.
Proof. induction s; simpl; [reflexivity|]. now rewrite lower_char_idem, IHs. Qed.

Lemma toLowerCase_firstn n s :
  Js.toLowerCase s = s ->
  Js.toLowerCase (string_of_list_ascii (firstn n (list_ascii_of_string s)))
  = string_of_list_ascii (firstn n (list_ascii_of_string s)).
Proof.
  revert n. induction s as [|c s IH]; intros n H.
  - simpl. rewrite firstn_nil. reflexivity.
  - destruct n; [reflexivity|]. simpl in *. inversion H as [[Hc Hs]].
    rewrite Hc, Hs, IH by exact Hs. rewrite Hc. reflexivity.
Qed.

Lemma varchar_lower n s s' :
  Pg.varchar n s = Some s' -> Js.toLowerCase s = s -> Js.toLowerCase s' = s'.
Proof.
  unfold Pg.varchar.
  destruct (List.length (list_ascii_of_string s) <=? n)%nat.
  - intros H; inversion H; subst; auto.
  - destruct (Pg.all_spaces (skipn n (list_ascii_of_string s)));
      [|discriminate].
    intros H L; inversion H; subst. now apply toLowerCase_firstn.
Qed.

(** ** The ways a request can change the database *)

Lemma handle_effect
    (bcrypt_hash : string -> string -> string)
    (bcrypt_compare : string -> string -> bool)
    (jwt_sign : Z -> string -> Z -> string)
    (jwt_verify : string -> Z -> JwtResult)
    (fts_match : string -> string -> bool) env db req :
  effect db
    (fst (handle bcrypt_hash bcrypt_compare jwt_sign jwt_verify fts_match
            env db req)).
Proof.
  destruct req; simpl.
  - destruct (post_signup_insert bcrypt_hash jwt_sign env db
                username email password) as [H|(un & em & ph & H)].
    + now apply eff_none.
    + eapply eff_user; eauto.
  - apply eff_none, post_login_db.
  - unfold route_post_books.
    destruct (authenticateToken jwt_verify env db authorization);
      [now apply eff_none|].
    destruct (post_books_db env db a title author genre description
                published_year isbn)
      as [H|(ti & au & ge & de & ye & isb & c & H)].
    + now apply eff_none.
    + eapply eff_book; eauto.
  - now apply eff_none.
  - unfold route_post_review.
    destruct (authenticateToken jwt_verify env db authorization);
      [now apply eff_none|].
    destruct (post_review_db env db a id rating review_text)
      as [H|(b & u & rt & tx & H)].
    + now apply eff_none.
    + eapply eff_review; eauto.
  - unfold route_put_review.
    destruct (authenticateToken jwt_verify env db authorization);
      [now apply eff_none|].
    destruct (checkReviewOwnership db id a); [now apply eff_none|].
    destruct (put_review_seqs env db a id rating review_text) as (S1 & S2 & S3).
    destruct (put_review_effect env db a id rating review_text)
      as [H|(n & _ & Hu & Hb & F)].
    + now apply eff_none.
    + eapply eff_update; eauto.
  - unfold route_delete_review.
    destruct (authenticateToken jwt_verify env db authorization);
      [now apply eff_none|].
    destruct (checkReviewOwnership db id a); [now apply eff_none|].
    destruct (delete_review_seqs db id) as (S1 & S2 & S3).
    destruct (delete_review_effect db id) as [H|(n & _ & Hu & Hb & F)].
    + now apply eff_none.
    + eapply eff_delete; eauto.
  - now apply eff_none.
Qed.

(** ** Users and books are only ever added *)

(** X3.  No request changes or removes a user or a book: a request leaves
    both tables as they were or appends one row to one of them. *)
Theorem users_and_books_only_grow
    (bcrypt_hash : string -> string -> string)
    (bcrypt_compare : string -> string -> bool)
    (jwt_sign : Z -> string -> Z -> string)
    (jwt_verify : string -> Z -> JwtResult)
    (fts_match : string -> string -> bool) env db req :
  let db' := fst (handle bcrypt_hash bcrypt_compare jwt_sign jwt_verify
                    fts_match env db req) in
  (users db' = users db /\ books db' = books db)
  \/ (books db' = books db /\ exists u, users db' = users db ++ [u])
  \/ (users db' = users db /\ exists b, books db' = books db ++ [b]).
Proof.
  cbv zeta.
  destruct (handle_effect bcrypt_hash bcrypt_compare jwt_sign jwt_verify
              fts_match env db req)
    as [H|t un em ph H|t ti au g d y i c H|t b u rt tx H
        |t n r x Hu Hb _ _ _ _|n Hu Hb _ _ _ _]; rewrite ?H; auto.
  - destruct (insert_user_cases db t un (Js.toLowerCase em) ph)
      as (B & _ & _ & _ & _ & U).
    destruct (snd (insert_user db t un (Js.toLowerCase em) ph)) as [row|].
    + right. left. split; auto. exists row. tauto.
    + auto.
  - destruct (insert_book_cases db t ti au g d y i c)
      as (U & _ & _ & _ & _ & B).
    destruct (snd (insert_book db t ti au g d y i c)) as [row|].
    + right. right. split; auto. exists row. tauto.
    + auto.
  - destruct (insert_review_effect db t b u rt tx) as (U & B & _). auto.
Qed.

(** ** Fresh ids *)

Lemma Forall_snoc {A} (P : A -> Prop) l x :
  Forall P l -> P x -> Forall P (l ++ [x]).
Proof. intros. apply Forall_app. split; auto. Qed.

Lemma Forall_lt_succ {A} (f : A -> Z) s l :
  Forall (fun x => f x < s) l -> Forall (fun x => f x < s + 1) l.
Proof. apply Forall_impl. intros; lia. Qed.

Lemma seq_ok_effect db db' : effect db db' -> seq_ok db -> seq_ok db'.
Proof.
  intros E ((U1 & U2) & (B1 & B2) & (R1 & R2)).
  destruct E as [H|t un em ph H|t ti au g d y i c H|t b u rt tx H
                 |t n r x Hu Hb S1 S2 S3 F|n Hu Hb S1 S2 S3 F].
  - subst. repeat split; auto.
  - destruct (insert_user_cases db t un (Js.toLowerCase em) ph)
      as (B & R & SB & SR & SU & C). rewrite <- H in *.
    unfold seq_ok. rewrite B, R, SB, SR, SU.
    repeat split; auto; try lia.
    destruct (snd (insert_user db t un (Js.toLowerCase em) ph)) as [row|].
    + destruct C as (C & Hid & _). rewrite C.
      apply Forall_snoc; [now apply Forall_lt_succ|lia].
    + rewrite C. now apply Forall_lt_succ.
  - destruct (insert_book_cases db t ti au g d y i c)
      as (U & R & SU & SR & SB & C). rewrite <- H in *.
    unfold seq_ok. rewrite U, R, SU, SR, SB.
    repeat split; auto; try lia.
    destruct (snd (insert_book db t ti au g d y i c)) as [row|].
    + destruct C as (C & Hid). rewrite C.
      apply Forall_snoc; [now apply Forall_lt_succ|lia].
    + rewrite C. now apply Forall_lt_succ.
  - destruct (insert_review_effect db t b u rt tx) as (U & B & C).
    destruct (insert_review_cases db t b u rt tx) as (SU & SB & SR & Hid).
    rewrite <- H in *.
    unfold seq_ok. rewrite U, B, SU, SB, SR.
    repeat split; auto; try lia.
    destruct (snd (insert_review db t b u rt tx)) as [row|].
    + destruct C as (C & _). rewrite C.
      apply Forall_snoc; [now apply Forall_lt_succ|lia].
    + rewrite C. now apply Forall_lt_succ.
  - unfold seq_ok. rewrite Hu, Hb, S1, S2, S3. repeat split; auto.
    destruct (row_update_keys _ _ _ _ _ _ F) as [K _].
    apply (Forall_map r_id (fun i => i < reviews_id_seq db)).
    rewrite K. now apply Forall_map.
  - unfold seq_ok. rewrite Hu, Hb, S1, S2, S3, F. repeat split; auto.
    apply Forall_forall. intros r Hr. apply filter_In in Hr.
    rewrite Forall_forall in R2. now apply R2.
Qed.

Lemma seq_ok_createTables t0 : seq_ok (createTables t0).
Proof.
  assert (U : users (createTables t0) = []) by reflexivity.
  assert (R : reviews (createTables t0) = []) by reflexivity.
  assert (B : map b_id (books (createTables t0)) = [1; 2; 3; 4; 5])
    by reflexivity.
  unfold seq_ok. rewrite U, R.
  change (users_id_seq (createTables t0)) with 1.
  change (books_id_seq (createTables t0)) with 6.
  change (reviews_id_seq (createTables t0)) with 1.
  split; [split; [lia|constructor]|].
  split; [split; [lia|]|split; [lia|constructor]].
  apply (Forall_map b_id (fun i => i < 6)). rewrite B.
  repeat constructor.
Qed.

Lemma users_ok_effect db db' : effect db db' -> users_ok db -> users_ok db'.
Proof.
  intros E (N1 & N2 & N3 & L).
  destruct E as [H|t un em ph H|t ti au g d y i c H|t b u rt tx H
                 |t n r x Hu Hb _ _ _ _|n Hu Hb _ _ _ _];
    unfold users_ok.
  - subst. auto.
  - destruct (insert_user_cases db t un (Js.toLowerCase em) ph)
      as (_ & _ & _ & _ & _ & C). rewrite <- H in *.
    destruct (snd (insert_user db t un (Js.toLowerCase em) ph)) as [row|].
    + destruct C as (C & _ & _ & _ & V & _ & _ & F1 & F2 & F3).
      rewrite C, !map_app. simpl.
      repeat split; try (apply NoDup_snoc; auto).
      apply Forall_snoc; auto.
      eapply varchar_lower; eauto using toLowerCase_idem.
    + rewrite C. auto.
  - destruct (insert_book_cases db t ti au g d y i c) as (U & _).
    rewrite <- H in *. rewrite U. auto.
  - destruct (insert_review_effect db t b u rt tx) as (U & _).
    rewrite <- H in *. rewrite U. auto.
  - rewrite Hu. auto.
  - rewrite Hu. auto.
Qed.

Lemma users_ok_createTables t0 : users_ok (createTables t0).
Proof.
  assert (U : users (createTables t0) = []) by reflexivity.
  unfold users_ok. rewrite U. simpl. repeat split; constructor.
Qed.

Section Invariants.

Variable bcrypt_hash : string -> string -> string.
Variable bcrypt_compare : string -> string -> bool.
Variable jwt_sign : Z -> string -> Z -> string.
Variable jwt_verify : string -> Z -> JwtResult.
Variable fts_match : string -> string -> bool.

Let reach :=
  reachable bcrypt_hash bcrypt_compare jwt_sign jwt_verify fts_match.

Lemma reachable_seq_ok db : reach db -> seq_ok db.
Proof.
  induction 1.
  - apply seq_ok_createTables.
  - eapply seq_ok_effect; eauto. apply handle_effect.
Qed.

Lemma reachable_users_ok db : reach db -> users_ok db.
Proof.
  induction 1.
  - apply users_ok_createTables.
  - eapply users_ok_effect; eauto. apply handle_effect.
Qed.

End Invariants.

(** ** Invariants of the tables *)

(** X4.  In every reachable state the users table has distinct ids,
    distinct usernames and distinct emails, and every stored email is in
    lower case. *)
Theorem users_table_invariant
    (bcrypt_hash : string -> string -> string)
    (bcrypt_compare : string -> string -> bool)
    (jwt_sign : Z -> string -> Z -> string)
    (jwt_verify : string -> Z -> JwtResult)
    (fts_match : string -> string -> bool) db :
  reachable bcrypt_hash bcrypt_compare jwt_sign jwt_verify fts_match db ->
  NoDup (map u_id (users db))
  /\ NoDup (map u_username (users db))
  /\ NoDup (map u_email (users db))
  /\ (forall u, In u (users db) -> Js.toLowerCase (u_email u) = u_email u).
Proof.
  intros R. apply reachable_users_ok in R. destruct R as (A & B & C & D).
  repeat split; auto. now apply Forall_forall.
Qed.

Lemma users_table_invariant_witness :
  NoDup (map u_email (users Stub.with_review))
  /\ map u_email (users Stub.with_review)
     = ["alice@x.com"; "bob@x.com"]%string.
Proof.
  destruct (users_table_invariant Stub.bcrypt_hash Stub.bcrypt_compare
              Stub.jwt_sign Stub.jwt_verify Stub.fts_match Stub.with_review
              reachable_with_review) as (_ & _ & H & _).
  split; [exact H|vm_compute; reflexivity].
Defined.

Lemma existsb_In_id {A} (f : A -> Z) (l : list A) n :
  existsb (fun x => f x =? n) l = true -> exists x, In x l /\ f x = n.
Proof.
  intros H. apply existsb_exists in H. destruct H as (x & Hin & E).
  apply Z.eqb_eq in E. eauto.
Qed.

(** X5.  In every reachable state each stored review has a rating from 1
    to 5, belongs to a stored book and to a stored user, and no two reviews
    share an id. *)
Theorem reviews_table_invariant
    (bcrypt_hash : string -> string -> string)
    (bcrypt_compare : string -> string -> bool)
    (jwt_sign : Z -> string -> Z -> string)
    (jwt_verify : string -> Z -> JwtResult)
    (fts_match : string -> string -> bool) db :
  reachable bcrypt_hash bcrypt_compare jwt_sign jwt_verify fts_match db ->
  NoDup (map r_id (reviews db))
  /\ (forall r, In r (reviews db) ->
        1 <= r_rating r <= 5
        /\ (exists b, In b (books db) /\ b_id b = r_book_id r)
        /\ (exists u, In u (users db) /\ u_id u = r_user_id r)).
Proof.
  intros R. apply reachable_db_wf in R. destruct R as (A & _ & C).
  split; [exact A|]. intros r Hin. rewrite Forall_forall in C.
  destruct (C r Hin) as (_ & _ & Hb & Hu & Hr).
  split; [zbool|split].
  - now apply existsb_In_id.
  - now apply existsb_In_id.
Qed.

Lemma reviews_table_invariant_witness :
  NoDup (map r_id (reviews Stub.with_review))
  /\ Forall (fun r => 1 <= r_rating r <= 5
                      /\ (exists b, In b (books Stub.with_review)
                                    /\ b_id b = r_book_id r)
                      /\ (exists u, In u (users Stub.with_review)
                                    /\ u_id u = r_user_id r))
       (reviews Stub.with_review).
Proof.
  destruct (reviews_table_invariant Stub.bcrypt_hash Stub.bcrypt_compare
              Stub.jwt_sign Stub.jwt_verify Stub.fts_match
              Stub.with_review reachable_with_review) as [A B].
  split; [exact A|]. apply Forall_forall. exact B.
Defined.

(** ** Signup, then the token, then login *)

Lemma strlen_toLowerCase s : strlen (Js.toLowerCase s) = strlen s.
Proof. unfold strlen. f_equal. induction s; simpl; auto. Qed.

Lemma fresh_id {A} (f : A -> Z) (l : list A) s :
  Forall (fun x => f x < s) l -> forall x, In x l -> f x <> s.
Proof.
  intros F x Hin E. rewrite Forall_forall in F. specialize (F x Hin). lia.
Qed.

(** A signup that passes every check stores the user. *)
Lemma signup_stores
    (bcrypt_hash : string -> string -> string)
    (jwt_sign : Z -> string -> Z -> string) env db username email password :
  seq_ok db -> users_id_seq db <= 2147483647 ->
  username <> ""%string -> email <> ""%string -> password <> ""%string ->
  validateEmail email = true -> strlen email <= 100 ->
  6 <= strlen password -> 3 <= strlen username <= 50 ->
  strlen (bcrypt_hash password (salt env)) <= 255 ->
  (forall u, In u (users db) ->
     u_email u <> Js.toLowerCase email
     /\ u_username u <> Js.toLowerCase username
     /\ u_username u <> username) ->
  let row := mkUser (users_id_seq db) username (Js.toLowerCase email)
               (bcrypt_hash password (salt env)) (now env) (now env) in
  post_signup bcrypt_hash jwt_sign env db
    (Val username) (Val email) (Val password)
  = (set_users db (users db ++ [row]) (users_id_seq db + 1),
     mkResponse 201
       (BSignup (users_id_seq db) username (Js.toLowerCase email) (now env)
          (generateToken jwt_sign env (users_id_seq db)))).
Proof.
  intros ((S1 & S2) & _) Smax Hu He Hp Ve Le Vp Vu Lh Hfree. cbv zeta.
  unfold post_signup, validatePassword.
  rewrite !truthy_str_Val by assumption. rewrite Ve.
  simpl negb. simpl orb. cbv iota.
  assert (P : (6 <=? strlen password) = true) by zbool.
  assert (U : (strlen username <? 3) || (50 <? strlen username) = false)
    by zbool.
  rewrite P, U. simpl andb. cbv iota.
  rewrite filter_none.
  2:{ intros x Hx. destruct (Hfree x Hx) as (A & B & _).
      apply String.eqb_neq in A, B. now rewrite A, B. }
  unfold insert_user, Pg.int4_of_number.
  assert (I : Pg.in_int4 (users_id_seq db) = true) by zbool.
  rewrite I, (varchar_fits 50 username), (varchar_fits 100), (varchar_fits 255)
    by (rewrite ?strlen_toLowerCase; lia).
  match goal with |- context [existsb ?p ?l] =>
    assert (X : existsb p l = false) end.
  { apply not_true_is_false. intros X. apply existsb_exists in X.
    destruct X as (x & Hx & X). destruct (Hfree x Hx) as (A & _ & C).
    pose proof (fresh_id u_id _ _ S2 x Hx) as D.
    apply String.eqb_neq in A, C. apply Z.eqb_neq in D.
    rewrite A, C, D in X. discriminate X. }
  rewrite X. reflexivity.
Qed.

Section AfterSignup.

Variable bcrypt_hash : string -> string -> string.
Variable bcrypt_compare : string -> string -> bool.
Variable jwt_sign : Z -> string -> Z -> string.
Variable jwt_verify : string -> Z -> JwtResult.
Variable fts_match : string -> string -> bool.

Variables (env : Env) (db : DB) (username email password : string).

(** The signup is one that the handler and the database accept. *)
Hypothesis db_reachable :
  reachable bcrypt_hash bcrypt_compare jwt_sign jwt_verify fts_match db.
Hypothesis id_in_range : users_id_seq db <= 2147483647.
Hypothesis username_given : username <> ""%string.
Hypothesis email_given : email <> ""%string.
Hypothesis password_given : password <> ""%string.
Hypothesis email_valid : validateEmail email = true.
Hypothesis email_fits : strlen email <= 100.
Hypothesis password_long : 6 <= strlen password.
Hypothesis username_sized : 3 <= strlen username <= 50.
Hypothesis hash_fits : strlen (bcrypt_hash password (salt env)) <= 255.
Hypothesis not_taken :
  forall u, In u (users db) ->
    u_email u <> Js.toLowerCase email
    /\ u_username u <> Js.toLowerCase username
    /\ u_username u <> username.

Let signup :=
  post_signup bcrypt_hash jwt_sign env db
    (Val username) (Val email) (Val password).

Let row :=
  mkUser (users_id_seq db) username (Js.toLowerCase email)
    (bcrypt_hash password (salt env)) (now env) (now env).

Lemma signup_result :
  signup
  = (set_users db (users db ++ [row]) (users_id_seq db + 1),
     mkResponse 201
       (BSignup (users_id_seq db) username (Js.toLowerCase email) (now env)
          (generateToken jwt_sign env (users_id_seq db)))).
Proof.
  apply signup_stores; auto. eapply reachable_seq_ok; eauto.
Qed.

Lemma new_user_by_id :
  filter (fun u => u_id u =? users_id_seq db) (users (fst signup)) = [row].
Proof.
  rewrite signup_result. simpl. rewrite filter_app, filter_none.
  - simpl. now rewrite Z.eqb_refl.
  - intros x Hx. apply Z.eqb_neq.
    destruct (reachable_seq_ok _ _ _ _ _ _ db_reachable) as ((_ & F) & _).
    eapply fresh_id; eauto.
Qed.

Lemma new_user_by_email e :
  Js.toLowerCase e = Js.toLowerCase email ->
  filter (fun u => String.eqb (u_email u) (Js.toLowerCase e))
    (users (fst signup)) = [row].
Proof.
  intros E. rewrite signup_result. simpl. rewrite filter_app, filter_none.
  - simpl. now rewrite E, String.eqb_refl.
  - intros x Hx. apply String.eqb_neq. rewrite E.
    now destruct (not_taken x Hx).
Qed.

(** X6.  Signup, then the token.  When a signup is accepted, the answer is
    201 with the new user, whose email is stored in lower case, and a
    token; and if [jwt.verify] decodes that token to the new id, a request
    that carries it as "Bearer <token>" passes [authenticateToken] in the
    state the signup leaves, with [req.user] the new user. *)
Theorem signup_token_authenticates env' :
  let token := generateToken jwt_sign env (users_id_seq db) in
  no_space token = true -> token <> ""%string ->
  jwt_verify token (now env') = Decoded (users_id_seq db) ->
  snd signup
  = mkResponse 201
      (BSignup (users_id_seq db) username (Js.toLowerCase email) (now env)
         token)
  /\ users (fst signup) = users db ++ [row]
  /\ authenticateToken jwt_verify env' (fst signup) (bearer token)
     = Next (mkAuthUser (users_id_seq db) username (Js.toLowerCase email)).
Proof.
  intros token Hs Hne V.
  split; [now rewrite signup_result|split; [now rewrite signup_result|]].
  unfold authenticateToken, bearer.
  change (("Bearer " ++ token)%string =? "")%string with false. cbv iota.
  rewrite split_space_bearer by exact Hs. simpl nth_error. cbv iota beta.
  apply String.eqb_neq in Hne. rewrite Hne, V.
  unfold Pg.int4_of_number.
  destruct (reachable_seq_ok _ _ _ _ _ _ db_reachable) as ((S1 & _) & _).
  assert (I : Pg.in_int4 (users_id_seq db) = true) by zbool.
  rewrite I, new_user_by_id. reflexivity.
Qed.

(** X7.  Signup, then login.  When a signup is accepted and
    [bcrypt.compare] accepts the password against the hash that
    [bcrypt.hash] made of it, a login with that password and the same email
    in any letter case gets 200 with the new user and a token. *)
Theorem signup_then_login env' email' :
  email' <> ""%string ->
  Js.toLowerCase email' = Js.toLowerCase email ->
  bcrypt_compare password (bcrypt_hash password (salt env)) = true ->
  post_login bcrypt_compare jwt_sign env' (fst signup)
    (Val email') (Val password)
  = (fst signup,
     mkResponse 200
       (BLogin (users_id_seq db) username (Js.toLowerCase email)
          (generateToken jwt_sign env' (users_id_seq db)))).
Proof.
  intros He' E C. unfold post_login.
  rewrite !truthy_str_Val by assumption. simpl negb. simpl orb. cbv iota.
  rewrite (new_user_by_email email' E). unfold row. simpl u_password_hash.
  rewrite C. reflexivity.
Qed.

End AfterSignup.

Lemma signup_token_authenticates_witness :
  authenticateToken Stub.jwt_verify (Stub.env 50)
    (fst (Stub.handle (Stub.env 10) (createTables 0)
            (POST_signup (Val "alice") (Val "Alice@X.com")
               (Val "secret1"))%string))
    (bearer "1")
  = Next (mkAuthUser 1 "alice" "alice@x.com").
Proof.
  assert (N : forall a : string, String.eqb a "" = false -> a <> ""%string)
    by (intros a; apply String.eqb_neq).
  destruct (signup_token_authenticates Stub.bcrypt_hash Stub.bcrypt_compare
              Stub.jwt_sign Stub.jwt_verify Stub.fts_match
              (Stub.env 10) (createTables 0) "alice" "Alice@X.com" "secret1"
              (reach_setup _ _ _ _ _ 0)
              ltac:(vm_compute; discriminate)
              (N "alice"%string eq_refl) (N "Alice@X.com"%string eq_refl)
              (N "secret1"%string eq_refl)
              ltac:(vm_compute; reflexivity)
              ltac:(vm_compute; discriminate)
              ltac:(vm_compute; discriminate)
              ltac:(vm_compute; split; discriminate)
              ltac:(vm_compute; discriminate)
              ltac:(intros u Hin; vm_compute in Hin; contradiction)
              (Stub.env 50)
              ltac:(vm_compute; reflexivity)
              ltac:(vm_compute; discriminate)
              ltac:(vm_compute; reflexivity)) as (_ & _ & H).
  vm_compute in H. vm_compute. exact H.
Defined.

Lemma signup_then_login_witness :
  snd (Stub.handle (Stub.env 50)
         (fst (Stub.handle (Stub.env 10) (createTables 0)
                 (POST_signup (Val "alice") (Val "Alice@X.com")
                    (Val "secret1"))%string))
         (POST_login (Val "ALICE@x.com") (Val "secret1"))%string)
  = mkResponse 200 (BLogin 1 "alice" "alice@x.com" "1").
Proof.
  assert (N : forall a : string, String.eqb a "" = false -> a <> ""%string)
    by (intros a; apply String.eqb_neq).
  pose proof (signup_then_login Stub.bcrypt_hash Stub.bcrypt_compare
              Stub.jwt_sign Stub.jwt_verify Stub.fts_match
              (Stub.env 10) (createTables 0) "alice" "Alice@X.com" "secret1"
              (reach_setup _ _ _ _ _ 0)
              ltac:(vm_compute; discriminate)
              (N "alice"%string eq_refl) (N "Alice@X.com"%string eq_refl)
              (N "secret1"%string eq_refl)
              ltac:(vm_compute; reflexivity)
              ltac:(vm_compute; discriminate)
              ltac:(vm_compute; discriminate)
              ltac:(vm_compute; split; discriminate)
              ltac:(vm_compute; discriminate)
              ltac:(intros u Hin; vm_compute in Hin; contradiction)
              (Stub.env 50) "ALICE@x.com"
              (N "ALICE@x.com"%string eq_refl)
              ltac:(vm_compute; reflexivity)
              ltac:(vm_compute; reflexivity)) as H.
  unfold Stub.handle, handle. rewrite H. vm_compute. reflexivity.
Defined.

(** ** Adding and deleting a review *)




Lemma find_filter_out {A} (p : A -> bool) (l : list A) :
  find p (filter (fun x => negb (p x)) l) = None.
Proof.
  induction l as [|x l IH]; simpl; auto.
  destruct (p x) eqn:E; simpl; auto. now rewrite E.
Qed.

(** X9.  Deleting one's review.  In a reachable state, when the ownership
    check passes, the delete is answered 200 with the stored review; that
    review is gone afterwards and every other review is still there; users
    and books are untouched; and the same request sent again is answered
    404 by the ownership check. *)
Theorem delete_review_removes
    (bcrypt_hash : string -> string -> string)
    (bcrypt_compare : string -> string -> bool)
    (jwt_sign : Z -> string -> Z -> string)
    (jwt_verify : string -> Z -> JwtResult)
    (fts_match : string -> string -> bool)
    env db authorization id user :
  reachable bcrypt_hash bcrypt_compare jwt_sign jwt_verify fts_match db ->
  authenticateToken jwt_verify env db authorization = Next user ->
  checkReviewOwnership db id user = Next tt ->
  let res := route_delete_review jwt_verify env db authorization id in
  exists r,
    In r (reviews db) /\ r_user_id r = au_id user
    /\ Pg.int4in id = Some (r_id r)
    /\ snd res = mkResponse 200 (BDeleted (Some r))
    /\ (forall x, In x (reviews (fst res)) <-> In x (reviews db) /\ x <> r)
    /\ users (fst res) = users db /\ books (fst res) = books db
    /\ checkReviewOwnership (fst res) id user
       = Respond (json_error 404 "Review not found").
Proof.
  intros R Au C. cbv zeta. apply reachable_db_wf in R. destruct R as (N & _).
  destruct (checkReviewOwnership_next _ _ _ C) as (n & r & I & P & F & O).
  pose proof (find_some _ _ F) as [Hr Hid]. apply Z.eqb_eq in Hid.
  exists r. rewrite Hid. repeat split; auto.
  - unfold route_delete_review. rewrite Au, C.
    unfold delete_review, delete_review_row, Pg.int4_of_number.
    rewrite P, (int4in_in_int4 _ _ I). simpl. now rewrite hd_filter_find, F.
  - unfold route_delete_review in H. rewrite Au, C in H.
    unfold delete_review, delete_review_row, Pg.int4_of_number in H.
    rewrite P, (int4in_in_int4 _ _ I) in H. simpl in H.
    apply filter_In in H. tauto.
  - unfold route_delete_review in H. rewrite Au, C in H.
    unfold delete_review, delete_review_row, Pg.int4_of_number in H.
    rewrite P, (int4in_in_int4 _ _ I) in H. simpl in H.
    apply filter_In in H. destruct H as [_ H]. intros ->.
    rewrite Hid, Z.eqb_refl in H. discriminate H.
  - intros [Hx Hne]. unfold route_delete_review. rewrite Au, C.
    unfold delete_review, delete_review_row, Pg.int4_of_number.
    rewrite P, (int4in_in_int4 _ _ I). simpl.
    apply filter_In. split; auto. apply negb_true_iff, Z.eqb_neq.
    intros E. apply Hne. eapply (NoDup_map_eq r_id); eauto. congruence.
  - unfold route_delete_review. rewrite Au, C.
    unfold delete_review, delete_review_row, Pg.int4_of_number.
    rewrite P, (int4in_in_int4 _ _ I). reflexivity.
  - unfold route_delete_review. rewrite Au, C.
    unfold delete_review, delete_review_row, Pg.int4_of_number.
    rewrite P, (int4in_in_int4 _ _ I). reflexivity.
  - pose proof (checkReviewOwnership_cases
                  (fst (route_delete_review jwt_verify env db authorization id))
                  id user) as K.
    rewrite I in K.
    unfold route_delete_review in K at 1. rewrite Au, C in K.
    unfold delete_review, delete_review_row, Pg.int4_of_number in K.
    rewrite P, (int4in_in_int4 _ _ I) in K. simpl in K.
    rewrite (find_filter_out (fun r => r_id r =? n)) in K. exact K.
Qed.

Lemma delete_review_removes_witness :
  let res := Stub.handle (Stub.env 60) Stub.with_review
               (DELETE_review Stub.alice "1") in
  snd res = mkResponse 200 (BDeleted (Some (mkReview 1 6 1 5
                                              (Some "great"%string) 40 40)))
  /\ reviews (fst res) = []
  /\ snd (Stub.handle (Stub.env 61) (fst res) (DELETE_review Stub.alice "1"))
     = json_error 404 "Review not found".
Proof.
  destruct (delete_review_removes Stub.bcrypt_hash Stub.bcrypt_compare
              Stub.jwt_sign Stub.jwt_verify Stub.fts_match
              (Stub.env 60) Stub.with_review Stub.alice "1"
              (mkAuthUser 1 "alice" "alice@x.com")
              reachable_with_review
              ltac:(vm_compute; reflexivity) ltac:(vm_compute; reflexivity))
    as (r & Hin & _ & _ & S & _).
  vm_compute in Hin. destruct Hin as [<-|[]].
  cbv zeta. unfold Stub.handle, handle at 2.
  split; [exact S|]. split; vm_compute; reflexivity.
Defined.

(** ** The book listing *)




Lemma length_window {A} (l o : Z) (rows : list A) :
  Z.of_nat (List.length (firstn (Z.to_nat l) (skipn (Z.to_nat o) rows)))
  <= Z.max l 0.
Proof. rewrite length_firstn. lia. Qed.



(** ** The search handler *)

(** X11.  The search handler.  It answers 400 exactly when [q] is missing
    or has fewer than two characters once trimmed.  When it answers 200,
    the query echoed is the trimmed [q], every book returned is a stored
    book that satisfies the WHERE clause for it (a LIKE match on title or
    author, or the full-text match), at most 50 books are returned, and
    total_books counts all stored books that satisfy the clause. *)
Theorem search_answers
    (fts_match : string -> string -> bool) db q page limit :
  let res := get_search fts_match db q page limit in
  (status res = 400
   <-> q = None \/ exists s, q = Some s /\ strlen (Js.trim s) < 2)
  /\ (forall term found info,
        res = mkResponse 200 (BSearch term found info) ->
        exists s,
          q = Some s /\ term = Js.trim s /\ 2 <= strlen term
          /\ (List.length found <= 50)%nat
          /\ (forall row, In row found ->
                exists b, In b (books db) /\ row = book_row db b
                          /\ search_where fts_match term (like_pattern term) b
                             = true)
          /\ total_items info
             = Z.of_nat (List.length
                           (filter (search_where fts_match term
                                      (like_pattern term)) (books db)))).
Proof.
  cbv zeta. unfold get_search.
  destruct q as [s|].
  2:{ split; [simpl; split; auto|discriminate]. }
  assert (T0 : s = ""%string -> strlen (Js.trim s) = 0) by (intros ->; reflexivity).
  destruct (String.eqb_spec s "") as [Es|Es].
  { simpl. split; [|discriminate].
    split; auto. intros _. right. exists s. split; auto. rewrite T0; auto. lia. }
  simpl orb.
  destruct (Z.eqb_spec (strlen (Js.trim s)) 0) as [Z0|Z0].
  { split; [|discriminate]. simpl. split; auto.
    intros _. right. exists s. split; auto. lia. }
  destruct (Z.ltb_spec (strlen (Js.trim s)) 2) as [L|L].
  { split; [|discriminate]. simpl. split; auto.
    intros _. right. exists s. split; auto. }
  destruct (search_rows fts_match db (Js.trim s)
              (pg_limit (getPagination page limit))
              (pg_offset (getPagination page limit))) as [rows|] eqn:S.
  - split.
    + simpl. split; [discriminate|].
      intros [H|(s' & E & H)]; [discriminate|]. inversion E; subst. lia.
    + intros term found info H. inversion H; subst; clear H.
      exists s. repeat split; auto.
      * unfold search_rows in S. apply limit_offset_window in S. subst rows.
        rewrite length_map.
        match goal with |- (List.length (firstn ?n (skipn ?m ?l)) <= 50)%nat =>
          pose proof (length_window (pg_limit (getPagination page limit))
                        (pg_offset (getPagination page limit)) l) end.
        destruct (getPagination_range page limit). lia.
      * intros row Hin. apply in_map_iff in Hin.
        destruct Hin as ([row' sc] & <- & Hin).
        unfold search_rows in S. apply limit_offset_window in S. subst rows.
        apply In_window in Hin.
        eapply Permutation_in in Hin; [|apply order_by_perm].
        apply in_map_iff in Hin. destruct Hin as (b & E & Hb).
        inversion E; subst. apply filter_In in Hb. destruct Hb as [Hb W].
        exists b. auto.
  - split; [|discriminate]. simpl. split; [discriminate|].
    intros [H|(s' & E & H)]; [discriminate|]. inversion E; subst. lia.
Qed.

Lemma search_answers_witness :
  exists s,
    Some " gatsby "%string = Some s /\ "gatsby"%string = Js.trim s
    /\ 2 <= strlen "gatsby".
Proof.
  destruct (get_search Stub.fts_match Stub.with_dune (Some " gatsby "%string)
              None None) as [st [e|i u em c t|i u em t|b|r u|r|b r p
                                 |term found info]] eqn:E;
    try (vm_compute in E; discriminate E).
  assert (st = 200) by (vm_compute in E; congruence). subst st.
  assert (term = "gatsby"%string) by (vm_compute in E; congruence). subst term.
  destruct (search_answers Stub.fts_match Stub.with_dune
              (Some " gatsby "%string) None None) as (_ & H).
  cbv zeta in H.
  destruct (H "gatsby"%string found info E) as (s & A & B & C & _).
  exists s. auto.
Defined.

(** ** Paging through a result *)

Lemma firstn_plus {A} a b (l : list A) :
  firstn (a + b) l = firstn a l ++ firstn b (skipn a l).
Proof.
  revert l. induction a as [|a IH]; intros l; simpl; auto.
  destruct l; simpl; [now rewrite firstn_nil|]. now rewrite IH.
Qed.

Lemma concat_windows {A} k n (l : list A) :
  List.concat (map (fun i => firstn k (skipn (i * k) l)) (seq 0 n))
  = firstn (n * k) l.
Proof.
  induction n as [|n IH]; [reflexivity|].
  rewrite seq_S, map_app, concat_app, IH. simpl.
  rewrite app_nil_r, (Nat.add_comm k), firstn_plus. reflexivity.
Qed.

Lemma page_window_eq {A} page limit (rows : list A) i m :
  Js.parseInt (Js.ToString page) = Some (Z.of_nat i + 1) ->
  Js.parseInt (Js.ToString limit) = Some m -> 1 <= m <= 50 ->
  Z.of_nat i * m <= 9223372036854775807 ->
  page_window page limit rows
  = firstn (Z.to_nat m) (skipn (i * Z.to_nat m) rows).
Proof.
  intros P L Hm Hi. unfold page_window, getPagination. rewrite P, L.
  unfold Js.or_default.
  destruct (Z.eqb_spec (Z.of_nat i + 1) 0); [lia|].
  destruct (Z.eqb_spec m 0); [lia|]. cbn [pg_limit pg_offset].
  rewrite Z.min_l, Z.max_l by nia.
  rewrite limit_offset_some by nia.
  f_equal. f_equal. nia.
Qed.

(** X12.  Paging visits every row once.  For a limit read as a number from
    1 to 50, the windows that the pagination helper and LIMIT/OFFSET cut
    for the pages 1, 2, ..., n, put one after the other, are the rows
    themselves, in their order, as soon as n times the limit reaches the
    number of rows. *)
Theorem pages_partition {A} (rows : list A) (limit : option string)
    (page_of : nat -> option string) (m : Z) (n : nat) :
  Js.parseInt (Js.ToString limit) = Some m -> 1 <= m <= 50 ->
  (forall i, (i < n)%nat ->
     Js.parseInt (Js.ToString (page_of i)) = Some (Z.of_nat i + 1)) ->
  Z.of_nat (List.length rows) <= Z.of_nat n * m ->
  Z.of_nat n * m <= 9223372036854775807 ->
  List.concat (map (fun i => page_window (page_of i) limit rows) (seq 0 n))
  = rows.
Proof.
  intros L Hm P Hlen Hmax.
  rewrite (map_ext_in _ (fun i => firstn (Z.to_nat m)
                                    (skipn (i * Z.to_nat m) rows))).
  - rewrite concat_windows. apply firstn_all2. nia.
  - intros i Hi. apply in_seq in Hi.
    apply page_window_eq; auto; [apply P; lia|nia].
Qed.

Lemma pages_partition_witness :
  List.concat (map (fun i => page_window (page_strings i) (Some "2"%string)
                               [10; 20; 30; 40; 50]) (seq 0 3))
  = [10; 20; 30; 40; 50].
Proof.
  apply (pages_partition [10; 20; 30; 40; 50] (Some "2"%string)
           page_strings 2 3).
  - reflexivity.
  - lia.
  - intros i Hi. destruct i as [|[|[|i]]]; try reflexivity. lia.
  - simpl. lia.
  - lia.
Defined.

(** X13.  The number of pages.  For a positive limit and a total that is
    not negative, total_pages is the least number of pages that hold all
    items: total_pages times the limit reaches the total, one page less
    does not; it is 0 exactly when there is nothing to show; and has_next is
    set exactly when the current page is below total_pages. *)
Theorem total_pages_least (p : Pagination) (total : Z) :
  1 <= pg_limit p -> 0 <= total ->
  let info := page_info p total in
  total <= total_pages info * pg_limit p
  /\ (0 < total -> (total_pages info - 1) * pg_limit p < total)
  /\ 0 <= total_pages info
  /\ (total_pages info = 0 <-> total = 0)
  /\ (has_next info = true <-> current_page info < total_pages info)
  /\ (has_prev info = true <-> 1 < current_page info)
  /\ total_items info = total.
Proof.
  intros Hl Ht. unfold page_info, ceil_div. cbn.
  pose proof (Z.div_mod (- total) (pg_limit p) ltac:(lia)) as D.
  pose proof (Z.mod_pos_bound (- total) (pg_limit p) ltac:(lia)) as B.
  set (d := - total / pg_limit p) in *.
  set (r := (- total) mod pg_limit p) in *.
  repeat split; intros; try (apply Z.ltb_lt); try (apply Z.ltb_lt; assumption);
    try nia.
Qed.

Lemma total_pages_least_witness :
  let info := page_info (getPagination (Some "2"%string) None) 21 in
  total_pages info = 3 /\ has_next info = true /\ has_prev info = true.
Proof.
  destruct (total_pages_least (getPagination (Some "2"%string) None) 21)
    as (A & B & _ & _ & C & D & _); [vm_compute; discriminate|lia|].
  cbv zeta in *.
  change (pg_limit (getPagination (Some "2"%string) None)) with 10 in *.
  specialize (B ltac:(lia)).
  split; [lia|]. split; [apply C|apply D]; vm_compute; reflexivity.
Defined.

(** ** The email check *)

Lemma split_at_first_spec sep s a b :
  split_at_first sep s = Some (a, b)
  <-> s = a ++ sep :: b /\ forallb (fun c => negb (c =? sep)%char) a = true.
Proof.
  revert a b. induction s as [|c s IH]; intros a b; simpl.
  - split; [discriminate|]. intros [E _]. destruct a; discriminate E.
  - destruct (c =? sep)%char eqn:Ec.
    + apply Ascii.eqb_eq in Ec. subst c. split.
      * intros H. inversion H. auto.
      * intros [E F]. destruct a as [|x a]; [now inversion E|].
        inversion E; subst. simpl in F. rewrite Ascii.eqb_refl in F.
        discriminate F.
    + destruct (split_at_first sep s) as [[a0 b0]|] eqn:S.
      * split.
        -- intros H. inversion H; subst.
           destruct (proj1 (IH a0 b) eq_refl) as [E F]. subst s.
           split; auto. simpl. now rewrite Ec, F.
        -- intros [E F]. destruct a as [|x a].
           ++ inversion E; subst. rewrite Ascii.eqb_refl in Ec. discriminate Ec.
           ++ inversion E; subst. simpl in F. apply andb_true_iff in F.
              destruct F as [_ F].
              assert (H : Some (a0, b0) = Some (a, b))
                by (apply IH; auto).
              now inversion H.
      * split; [discriminate|]. intros [E F]. destruct a as [|x a].
        -- inversion E; subst. rewrite Ascii.eqb_refl in Ec. discriminate Ec.
        -- inversion E; subst. simpl in F. apply andb_true_iff in F.
           destruct F as [_ F].
           assert (H : None = Some (a, b)) by (apply IH; auto).
           discriminate H.
Qed.

Lemma dot_not_last_spec t :
  dot_not_last t = true
  <-> exists x y, t = x ++ "."%char :: y /\ y <> [].
Proof.
  induction t as [|c t IH]; simpl.
  - split; [discriminate|]. intros (x & y & E & _). destruct x; discriminate E.
  - destruct t as [|d t].
    + split; [discriminate|]. intros (x & y & E & Hy).
      destruct x as [|x0 x]; inversion E; subst; [contradiction|].
      destruct x; discriminate.
    + rewrite orb_true_iff, IH. split.
      * intros [H|(x & y & E & Hy)].
        -- apply Ascii.eqb_eq in H. subst c. exists [], (d :: t).
           split; [reflexivity|discriminate].
        -- exists (c :: x), y. rewrite E. auto.
      * intros (x & y & E & Hy). destruct x as [|x0 x]; inversion E; subst.
        -- left. apply Ascii.eqb_refl.
        -- right. eauto.
Qed.

Lemma email_char_not_at l :
  forallb email_char l = true ->
  forallb (fun c => negb (c =? "@")%char) l = true.
Proof.
  intros H. rewrite forallb_forall in *. intros c Hc.
  specialize (H c Hc). unfold email_char in H.
  apply andb_true_iff in H. tauto.
Qed.

Lemma email_part_chars (l : chars) :
  l <> [] -> forallb email_char l = true ->
  email_part (string_of_list_ascii l).
Proof.
  intros N F. split.
  - intros E. apply N. rewrite <- (list_ascii_of_string_of_list_ascii l), E.
    reflexivity.
  - now rewrite list_ascii_of_string_of_list_ascii.
Qed.

(** X14.  The email check accepts exactly the strings of the shape
    local@domain.tld with the three parts non-empty and free of white space
    and of the at-sign: what the regular expression of [validateEmail]
    describes. *)
Theorem validateEmail_shape (email : string) :
  validateEmail email = true
  <-> exists loc dom tld : string,
        email = (loc ++ "@" ++ dom ++ "." ++ tld)%string
        /\ email_part loc /\ email_part dom /\ email_part tld.
Proof.
  unfold validateEmail. split.
  - destruct (split_at_first "@" (list_ascii_of_string email))
      as [[loc dom]|] eqn:S; [|discriminate].
    apply split_at_first_spec in S. destruct S as [E _].
    destruct loc as [|l0 loc]; [discriminate|].
    destruct dom as [|d0 dom]; [discriminate|].
    intros H. apply andb_true_iff in H. destruct H as [H D].
    apply andb_true_iff in H. destruct H as [Fl Fd].
    apply dot_not_last_spec in D. destruct D as (x & y & -> & Hy).
    change (d0 :: x ++ "."%char :: y) with ((d0 :: x) ++ "."%char :: y) in Fd.
    rewrite forallb_app in Fd. apply andb_true_iff in Fd.
    destruct Fd as [Fb Fc]. cbn [forallb] in Fc.
    apply andb_true_iff in Fc. destruct Fc as [_ Fc].
    exists (string_of_list_ascii (l0 :: loc)),
           (string_of_list_ascii (d0 :: x)), (string_of_list_ascii y).
    split; [|repeat split; try (apply email_part_chars; auto; discriminate);
             apply email_part_chars; auto].
    rewrite <- (string_of_list_ascii_of_string email), E.
    change ("@" ++ ?s)%string with (String "@" s).
    rewrite string_of_list_ascii_app. f_equal. cbn [string_of_list_ascii].
    f_equal. f_equal. rewrite string_of_list_ascii_app. reflexivity.
  - intros (loc & dom & tld & -> & (Nl & Fl) & (Nd & Fd) & (Nt & Ft)).
    rewrite !list_ascii_of_string_app. simpl.
    assert (S : split_at_first "@"
                  (list_ascii_of_string loc ++ "@"%char ::
                   list_ascii_of_string dom ++ "."%char ::
                   list_ascii_of_string tld)
                = Some (list_ascii_of_string loc,
                        list_ascii_of_string dom ++ "."%char ::
                        list_ascii_of_string tld)).
    { apply split_at_first_spec. split; auto. now apply email_char_not_at. }
    rewrite S.
    destruct loc as [|l0 loc]; [contradiction|].
    destruct dom as [|d0 dom]; [contradiction|].
    simpl list_ascii_of_string in *. cbn [app].
    change (forallb email_char
              (d0 :: list_ascii_of_string dom ++ "."%char ::
               list_ascii_of_string tld))
      with (forallb email_char
              ((d0 :: list_ascii_of_string dom) ++ "."%char ::
               list_ascii_of_string tld)).
    rewrite forallb_app, Fl, Fd. simpl forallb at 1. rewrite Ft.
    change (email_char ".") with true. simpl andb.
    apply dot_not_last_spec.
    exists (list_ascii_of_string dom), (list_ascii_of_string tld).
    split; auto. destruct tld; [contradiction|discriminate].
Qed.

(** ** Storing a book *)

Lemma insert_book_fresh db t title author g d y i c :
  1 <= books_id_seq db <= 2147483647 ->
  Forall (fun b => b_id b < books_id_seq db) (books db) ->
  strlen title <= 255 -> strlen author <= 255 ->
  Pg.varchar_opt 100 g = Some g -> int4_opt y = Some y ->
  Pg.varchar_opt 20 i = Some i -> int4_opt c = Some c ->
  match c with Some uid => user_exists db uid | None => true end = true ->
  insert_book db t (Some title) (Some author) g d y i c
  = (set_books db
       (books db ++ [mkBook (books_id_seq db) title author g d y i c t t])
       (books_id_seq db + 1),
     Some (mkBook (books_id_seq db) title author g d y i c t t)).
Proof.
  intros S F Lt La G Y I C U. unfold insert_book, Pg.int4_of_number.
  assert (Is : Pg.in_int4 (books_id_seq db) = true) by zbool.
  rewrite Is, (varchar_fits 255 title), (varchar_fits 255 author), G, Y, I, C
    by lia.
  assert (X : book_exists db (books_id_seq db) = false).
  { apply not_true_is_false. intros X. apply existsb_In_id in X.
    destruct X as (x & Hx & E). eapply fresh_id; eauto. }
  rewrite X, U. reflexivity.
Qed.




(** ** The sample data *)

Lemma insert_samples t rows :
  Forall sample_fits rows ->
  forall db,
    1 <= books_id_seq db ->
    books_id_seq db + Z.of_nat (List.length rows) - 1 <= 2147483647 ->
    Forall (fun b => b_id b < books_id_seq db) (books db) ->
    let db' := fold_left (insert_sample t) rows db in
    map book_key (books db')
    = map book_key (books db) ++ map sample_key rows
    /\ users db' = users db /\ reviews db' = reviews db.
Proof.
  induction 1 as [|r rows Hr Hrows IH]; intros db S1 Smax F; cbv zeta.
  - simpl. rewrite app_nil_r. auto.
  - destruct r as [[[[[title author] genre] description] yr] isbn].
    destruct Hr as (Lt & La & Lg & Iy & Li).
    simpl fold_left. unfold insert_sample at 2.
    rewrite insert_book_fresh; auto.
    + simpl fst. cbn [List.length] in Smax.
      match goal with |- context [fold_left _ rows ?d] => set (db1 := d) end.
      destruct (IH db1) as (A & B & C).
      * simpl. lia.
      * simpl. lia.
      * simpl. apply Forall_snoc; [now apply Forall_lt_succ|simpl; lia].
      * split; [|split; [exact B|exact C]].
        rewrite A. simpl. rewrite map_app, <- app_assoc. reflexivity.
    + cbn [List.length] in Smax. lia.
    + simpl. now rewrite varchar_fits.
    + simpl. unfold Pg.int4_of_number. now rewrite Iy.
    + simpl. now rewrite varchar_fits.
Qed.

Lemma sample_books_length : List.length sample_books = 5%nat.
Proof. reflexivity. Qed.

Lemma sample_books_fit : Forall sample_fits sample_books.
Proof. repeat constructor; vm_compute; discriminate. Qed.

(** X16.  The sample data and its guard.  [insertSampleData] stores
    nothing once a user exists; while the users table is empty it stores
    the five sample books again, whatever books are stored already; run on
    the database it has set up itself, it leaves every sample book
    twice. *)
Theorem sample_data_guard t db :
  1 <= books_id_seq db -> books_id_seq db + 4 <= 2147483647 ->
  Forall (fun b => b_id b < books_id_seq db) (books db) ->
  (users db <> [] -> insertSampleData t db = db)
  /\ (users db = [] ->
      map book_key (books (insertSampleData t db))
      = map book_key (books db) ++ map sample_key sample_books).
Proof.
  intros S1 Smax F. unfold insertSampleData. split.
  - intros H. destruct (users db); [contradiction|]. reflexivity.
  - intros U. rewrite U.
    change (Z.of_nat (List.length (@nil User)) >? 0) with false. cbv iota.
    assert (Hlen : books_id_seq db + Z.of_nat (List.length sample_books) - 1
                   <= 2147483647).
    { rewrite sample_books_length. lia. }
    exact (proj1 (insert_samples t sample_books sample_books_fit db S1
                    Hlen F)).
Qed.

Lemma sample_data_guard_witness :
  map b_title (books (insertSampleData 1 (createTables 0)))
  = map b_title (books (createTables 0))
    ++ map b_title (books (createTables 0))
  /\ insertSampleData 1 Stub.with_users = Stub.with_users.
Proof.
  destruct (sample_data_guard 1 (createTables 0)) as (_ & A);
    [vm_compute; discriminate|vm_compute; discriminate
    |apply (seq_ok_createTables 0)|].
  destruct (sample_data_guard 1 Stub.with_users) as (B & _);
    [vm_compute; discriminate|vm_compute; discriminate
    |apply (reachable_seq_ok _ _ _ _ _ _ reachable_with_users)|].
  split; [|apply B; vm_compute; discriminate].
  specialize (A eq_refl).
  assert (E : forall l : list Book, map b_title l = map fst (map book_key l)).
  { intros l. rewrite map_map. reflexivity. }
  rewrite !E, A, map_app. f_equal.
Defined.
